(** * MCP actions backend: routers, McpService and audit helper

    A shallow embedding of
    - [plugins/mcp-actions-backend/src/services/McpService.ts],
    - [plugins/mcp-actions-backend/src/routers/createStreamableRouter.ts],
    - [plugins/mcp-actions-backend/src/routers/createSseRouter.ts],
    - [plugins/mcp-actions-backend/src/services/auditorUtils.ts],
    with the properties of the specification stated over it.

    Handlers are written in a state-and-exception monad over a store that
    holds the external collaborators' state, the Express response object,
    the handler's mutable locals, the SSE session registry and a
    chronological trace of every observable effect. *)

From Stdlib Require Import ZArith Ascii String.
From stdpp Require Import base list strings gmap pretty.

Local Open Scope Z_scope.
Set Warnings "-register-all".

(** ** JavaScript built-ins used by the sources *)

Module Js.

Definition dquote : ascii := "034"%char.
Definition backslash : ascii := "\"%char.
Definition newline : ascii := "010"%char.
Definition nl : string := String newline "".

(** JSON values ([JsonValue] of [@backstage/types]); numbers are the
    integers, which is all the sources put into a payload. *)
Inductive Json : Type :=
| JNull
| JBool (b : bool)
| JNum (n : Z)
| JStr (s : string)
| JArr (items : list Json)
| JObj (props : list (string * Json)).

(** Property read [o.k] on an object literal. *)
Fixpoint assoc {A} (k : string) (l : list (string * A)) : option A :=
  match l with
  | [] => None
  | (k', v) :: r => if String.eqb k k' then Some v else assoc k r
  end.

Definition prop (k : string) (v : Json) : option Json :=
  match v with
  | JObj props => assoc k props
  | _ => None
  end.

(** [String.prototype.startsWith]. *)
Definition startsWith (s p : string) : bool := String.prefix p s.

(** [Array.prototype.join]. *)
Definition join (sep : string) (l : list string) : string :=
  String.concat sep l.

Definition hex (n : N) : ascii :=
  Ascii.ascii_of_N (if (n <? 10)%N then 48 + n else 87 + n)%N.

(** The escape of one character inside a JSON string literal. *)
Definition escape (c : ascii) : string :=
  let n := Ascii.N_of_ascii c in
  if Ascii.eqb c dquote then String backslash (String dquote "")
  else if Ascii.eqb c backslash then String backslash (String backslash "")
  else if (n =? 8)%N then "\b"
  else if (n =? 9)%N then "\t"
  else if (n =? 10)%N then "\n"
  else if (n =? 12)%N then "\f"
  else if (n =? 13)%N then "\r"
  else if (n <? 32)%N
       then "\u00" +:+ String (hex (n / 16)) (String (hex (n mod 16)) "")
  else String c "".

Fixpoint escapeAll (s : string) : string :=
  match s with
  | EmptyString => ""
  | String c r => escape c +:+ escapeAll r
  end.

Definition quote (s : string) : string :=
  String dquote (escapeAll s +:+ String dquote "").

(** [JSON.stringify(v, null, gap)]: [gap] is the indentation unit (empty
    for the one-argument call), [indent] the current indentation. *)
Fixpoint serialize (gap indent : string) (v : Json) {struct v} : string :=
  let inner := indent +:+ gap in
  let wrap (opening closing : string) (parts : list string) : string :=
    match parts with
    | [] => opening +:+ closing
    | _ =>
        if String.eqb gap "" then opening +:+ join "," parts +:+ closing
        else opening +:+ nl +:+ inner
             +:+ join ("," +:+ nl +:+ inner) parts
             +:+ nl +:+ indent +:+ closing
    end in
  match v with
  | JNull => "null"
  | JBool b => if b then "true" else "false"
  | JNum n => pretty n
  | JStr s => quote s
  | JArr items => wrap "[" "]" (map (serialize gap inner) items)
  | JObj props =>
      wrap "{" "}"
        (map (fun kv : string * Json =>
                quote (fst kv) +:+ (if String.eqb gap "" then ":" else ": ")
                +:+ serialize gap inner (snd kv)) props)
  end.

Definition JSON_stringify (v : Json) : string := serialize "" "" v.
Definition JSON_stringify_indent (v : Json) (n : nat) : string :=
  serialize (String.concat "" (replicate n " ")) "" v.

(** JavaScript truthiness of a [string | undefined]: [undefined] and the
    empty string are falsy. *)
Definition truthy (v : option string) : bool :=
  match v with
  | Some (String _ _) => true
  | _ => false
  end.

(** [s] occurs inside [t]. *)
Definition contains (t s : string) : Prop :=
  exists pre post : string, t = pre +:+ s +:+ post.

End Js.
Export Js.


(** ** [just-kebab-case], on ASCII strings

    The library the audit helper imports.  Its three regular expressions
    are [capital_plus_lower = /[A-Z][a-z]/g], [capitals = /[A-Z]+/g] and
    [wordSeparators = /[\s!-\/:-@\[-`{-~]+/] (white space and every
    punctuation character); the function is
    [str.replace(capital_plus_lower, ' ' + lower).replace(capitals, ' ' +
    lower).trim().split(wordSeparators).join('-').replace(/^-/, '')
    .replace(/-\s*$/, '')]. *)

Module KebabCase.

Definition code (c : ascii) : N := Ascii.N_of_ascii c.

Definition is_upper (c : ascii) : bool :=
  ((65 <=? code c) && (code c <=? 90))%N.
Definition is_lower (c : ascii) : bool :=
  ((97 <=? code c) && (code c <=? 122))%N.
Definition toLowerCase (c : ascii) : ascii :=
  if is_upper c then Ascii.ascii_of_N (code c + 32) else c.

(** [\s] *)
Definition is_space (c : ascii) : bool :=
  (((9 <=? code c) && (code c <=? 13)) || (code c =? 32))%N.
Definition is_punct (c : ascii) : bool :=
  (((33 <=? code c) && (code c <=? 47))
   || ((58 <=? code c) && (code c <=? 64))
   || ((91 <=? code c) && (code c <=? 96))
   || ((123 <=? code c) && (code c <=? 126)))%N.
Definition is_separator (c : ascii) : bool := is_space c || is_punct c.

Definition hyphen : ascii := "-"%char.

(** [str.replace(capital_plus_lower, m => ' ' + lower(m[0]) + m[1])] *)
Fixpoint replaceCapitalPlusLower (s : string) : string :=
  match s with
  | EmptyString => ""
  | String c r =>
      match r with
      | String d r' =>
          if is_upper c && is_lower d
          then String " " (String (toLowerCase c)
                            (String d (replaceCapitalPlusLower r')))
          else String c (replaceCapitalPlusLower r)
      | EmptyString => String c ""
      end
  end.

(** [str.replace(capitals, m => ' ' + m.toLowerCase())]; [in_run] says
    that the previous character belonged to the current match. *)
Fixpoint replaceCapitals (in_run : bool) (s : string) : string :=
  match s with
  | EmptyString => ""
  | String c r =>
      if is_upper c then
        if in_run then String (toLowerCase c) (replaceCapitals true r)
        else String " " (String (toLowerCase c) (replaceCapitals true r))
      else String c (replaceCapitals false r)
  end.

Fixpoint trimStart (s : string) : string :=
  match s with
  | EmptyString => ""
  | String c r => if is_space c then trimStart r else s
  end.

Fixpoint trimEnd (s : string) : string :=
  match s with
  | EmptyString => ""
  | String c r =>
      match trimEnd r with
      | EmptyString => if is_space c then "" else String c ""
      | r' => String c r'
      end
  end.

Definition trim (s : string) : string := trimEnd (trimStart s).

(** [str.split(wordSeparators)]: the fields between the maximal runs of
    separators; [in_sep] says that the previous character was one. *)
Fixpoint split (in_sep : bool) (s : string) : list string :=
  match s with
  | EmptyString => [""]
  | String c r =>
      if is_separator c then
        if in_sep then split true r else "" :: split true r
      else
        match split false r with
        | f :: fs => String c f :: fs
        | [] => [String c ""]
        end
  end.

(** [.replace(/^-/, '')] *)
Definition dropLeadingHyphen (s : string) : string :=
  match s with
  | String c r => if Ascii.eqb c hyphen then r else s
  | EmptyString => ""
  end.

Fixpoint all_space (s : string) : bool :=
  match s with
  | EmptyString => true
  | String c r => is_space c && all_space r
  end.

(** [.replace(/-\s*$/, '')]: the leftmost hyphen followed by white space
    only up to the end is cut off together with what follows. *)
Fixpoint dropTrailingHyphen (s : string) : string :=
  match s with
  | EmptyString => ""
  | String c r =>
      if Ascii.eqb c hyphen && all_space r then ""
      else String c (dropTrailingHyphen r)
  end.

Definition kebabCase (str : string) : string :=
  let str := replaceCapitalPlusLower str in
  let str := replaceCapitals false str in
  dropTrailingHyphen
    (dropLeadingHyphen (join "-" (split false (trim str)))).

(** Kebab-case words: characters that are neither capitals nor
    separators, in non-empty groups separated by single hyphens.
    [after_hyphen] says that a word has to start here. *)
Definition word_char (c : ascii) : bool :=
  negb (is_upper c) && negb (is_separator c).

Fixpoint kebab_from (after_hyphen : bool) (s : string) : bool :=
  match s with
  | EmptyString => negb after_hyphen
  | String c r =>
      if Ascii.eqb c hyphen then negb after_hyphen && kebab_from true r
      else word_char c && kebab_from false r
  end.

Definition is_kebab (s : string) : bool := kebab_from true s.

(** Like [kebab_from], but the string may end in a hyphen: the shape of
    the joined fields before the last [replace]. *)
Fixpoint hyphenated_from (after_hyphen : bool) (s : string) : bool :=
  match s with
  | EmptyString => true
  | String c r =>
      if Ascii.eqb c hyphen then negb after_hyphen && hyphenated_from true r
      else word_char c && hyphenated_from false r
  end.

Fixpoint all_chars (P : ascii -> bool) (s : string) : bool :=
  match s with
  | EmptyString => true
  | String c r => P c && all_chars P r
  end.

Definition no_upper (s : string) : bool :=
  all_chars (fun c => negb (is_upper c)) s.

End KebabCase.

(** ** [services/auditorUtils.ts]: the event id normalisation *)

Module AuditorUtils.
Import KebabCase.

Definition UNKNOWN_MCP_EVENT : string := "mcp-unknown-event".

(** The first four lines of [auditCreateEvent]. *)
Definition normalizedEventId (eventId : option string) : string :=
  let normalizedEventId :=
    match eventId with
    | Some s => if truthy eventId then kebabCase s else UNKNOWN_MCP_EVENT
    | None => UNKNOWN_MCP_EVENT
    end in
  if negb (startsWith normalizedEventId "mcp-")
  then "mcp-" +:+ normalizedEventId
  else normalizedEventId.

End AuditorUtils.

(** ** Data model *)

(** The principal of [BackstageCredentials]; [userEntityRef] is read
    through an [any] cast and may be [undefined]. *)
Record Principal := { userEntityRef : option string }.
Record BackstageCredentials := { principal : Principal }.

(** The parts of an [express.Request] the handlers read. *)
Record Request := {
  headers_authorization : option string;
  query_sessionId : option string;
  originalUrl : string;
  body : Json
}.

(** An [express.Response]. *)
Record Response := {
  statusCode : Z;
  contentType : option string;
  headersSent : bool;
  written : list string;
  finished : bool
}.

Definition freshResponse : Response :=
  {| statusCode := 200; contentType := None; headersSent := false;
     written := []; finished := false |}.

(** [ActionsServiceAction]. *)
Record ActionSchema := { input : Json; output : Json }.
Record ActionAttributes := {
  destructive : bool; idempotent : bool; readOnly : bool
}.
Record Action := {
  id : string;
  name : string;
  title : string;
  description : string;
  schema : ActionSchema;
  attributes : ActionAttributes
}.

(** The [params] of a [tools/call] request. *)
Record CallToolParams := {
  tool_name : string;
  arguments : option Json
}.

(** Protocol error classes of the error classifier. *)
Inductive ErrorCode := NotFoundCode | InternalErrorCode.

(** What a [throw] carries: an [Error] object with its [name] and
    [message], the protocol error raised by [handleErrors], or any other
    value, of which only [String(v)] is observed. *)
Inductive Thrown :=
| JsError (name message : string)
| McpError (code : ErrorCode) (message : string)
| NonError (shown : string).

Definition NotFoundError (message : string) : Thrown :=
  JsError "NotFoundError" message.

(** [isError] of [@backstage/errors] and [instanceof Error] agree on these. *)
Definition isError (e : Thrown) : bool :=
  match e with NonError _ => false | _ => true end.
Definition error_name (e : Thrown) : string :=
  match e with
  | JsError n _ => n
  | McpError _ _ => "McpError"
  | NonError _ => ""
  end.
Definition error_message (e : Thrown) : string :=
  match e with
  | JsError _ m => m
  | McpError _ m => m
  | NonError _ => ""
  end.
Definition String_of (e : Thrown) : string :=
  match e with
  | JsError n m => n +:+ ": " +:+ m
  | McpError _ m => "McpError: " +:+ m
  | NonError shown => shown
  end.

(** [error instanceof Error ? error.name : 'UnknownError'] and its twin. *)
Definition errorType (e : Thrown) : string :=
  if isError e then error_name e else "UnknownError".
Definition errorMessage (e : Thrown) : string :=
  if isError e then error_message e else String_of e.

Inductive Outcome (A : Type) :=
| Returned (a : A)
| Threw (e : Thrown).
Arguments Returned {A} a.
Arguments Threw {A} e.

(** *** The audit contract *)

Inductive McpAuditSeverityLevel := low | medium | high | critical.

(** An object literal whose property values may be [undefined]. *)
Definition Meta := list (string * option Json).

Record AuditEvent := {
  eventId : string;
  severityLevel : McpAuditSeverityLevel;
  request : option Request;
  meta : option Meta
}.

(** The [AuditorServiceEvent] handed back by [createEvent]. *)
Definition Handle := nat.

(** The session object of the legacy transport. *)
Record SSEServerTransport := {
  sessionId : string;
  endpoint : string
}.

(** A listener registered with [res.on('close', ...)], with the values its
    closure captured. *)
Inductive CloseListener :=
| StreamableClose (req : Request) (connectionStart : Z)
    (clientId : option string) (credentials : option BackstageCredentials)
| SseClose (req : Request) (connectionStart : Z)
    (transport : SSEServerTransport) (credentials : option BackstageCredentials).

(** Everything a handler does to the outside, in the order it happens.
    Calls to collaborators are recorded with what they answered. *)
Inductive Effect :=
| AuditorCreateEvent (h : Handle) (ev : AuditEvent)
| AuditorSuccess (h : Handle) (meta : option Meta)
| AuditorFail (h : Handle) (error : Thrown) (meta : option Meta)
| LoggerError (message : string)
| HttpAuthCredentials (req : Request) (answer : Outcome BackstageCredentials)
| ActionsList (credentials : BackstageCredentials)
    (answer : Outcome (list Action))
| ActionsInvoke (id : string) (input : option Json)
    (credentials : BackstageCredentials) (answer : Outcome Json)
| ServerConnect (answer : Outcome unit)
| TransportHandleRequest (req : Request) (answer : Outcome unit)
| TransportHandlePostMessage (sessionId : string) (req : Request)
    (answer : Outcome unit)
| TransportClose
| ServerClose
| ResStatus (code : Z)
| ResContentType (type : string)
| ResJson (payload : Json)
| ResWriteHead (code : Z)
| ResWrite (chunk : string)
| ResEnd (chunk : string)
| ResOnClose (listener : CloseListener)
| MapSet (sessionId : string)
| MapGet (sessionId : string)
| MapDelete (sessionId : string).

(** *** External collaborators

    The auth service, the actions service, the clock, the id generator and
    the protocol SDK, over a state [E] of their own.  The SDK operations
    also act on the response they are given. *)
Record Services (E : Type) := {
  httpAuth_credentials : Request -> E -> Outcome BackstageCredentials * E;
  actions_list : BackstageCredentials -> E -> Outcome (list Action) * E;
  actions_invoke :
    string -> option Json -> BackstageCredentials -> E -> Outcome Json * E;
  Date_now : E -> Z * E;
  randomUUID : E -> string * E;
  server_connect : Response -> E -> Outcome unit * Response * E;
  transport_handleRequest :
    Request -> Response -> E -> Outcome unit * Response * E;
  transport_handlePostMessage :
    SSEServerTransport -> Request -> Response -> E -> Outcome unit * Response * E
}.
Arguments httpAuth_credentials {E} _ _ _.
Arguments actions_list {E} _ _ _.
Arguments actions_invoke {E} _ _ _ _ _.
Arguments Date_now {E} _ _.
Arguments randomUUID {E} _ _.
Arguments server_connect {E} _ _ _.
Arguments transport_handleRequest {E} _ _ _ _.
Arguments transport_handlePostMessage {E} _ _ _ _ _.

(** *** The store *)

Record Store (E : Type) := {
  world : E;
  trace : list Effect;
  nextHandle : Handle;
  res : Response;
  (** [let credentials] and [let clientId] of the running handler *)
  credentials : option BackstageCredentials;
  clientId : option string;
  transportsToSessionId : gmap string SSEServerTransport;
  closeListeners : list CloseListener
}.
Arguments world {E} _.
Arguments trace {E} _.
Arguments nextHandle {E} _.
Arguments res {E} _.
Arguments credentials {E} _.
Arguments clientId {E} _.
Arguments transportsToSessionId {E} _.
Arguments closeListeners {E} _.

(** ** The handler monad: state threading with exceptions *)

Definition M (E A : Type) : Type := Store E -> Outcome A * Store E.

Definition run {E A} (m : M E A) (s : Store E) : Outcome A * Store E := m s.

#[global] Instance M_ret {E} : MRet (M E) :=
  fun A (a : A) s => (Returned a, s).

#[global] Instance M_bind {E} : MBind (M E) :=
  fun A B (f : A -> M E B) (m : M E A) s =>
    match m s with
    | (Returned a, s') => f a s'
    | (Threw e, s') => (Threw e, s')
    end.

Definition throw {E A} (e : Thrown) : M E A := fun s => (Threw e, s).

(** [try { body } catch (error) { handler }] *)
Definition try_catch {E A} (body : M E A) (handler : Thrown -> M E A) : M E A :=
  fun s =>
    match body s with
    | (Returned a, s') => (Returned a, s')
    | (Threw e, s') => handler e s'
    end.

Section Primitives.
Context {E : Type} (svc : Services E).

Definition emit (eff : Effect) : M E unit := fun s =>
  (Returned tt,
   {| world := world s; trace := trace s ++ [eff]; nextHandle := nextHandle s;
      res := res s; credentials := credentials s; clientId := clientId s;
      transportsToSessionId := transportsToSessionId s;
      closeListeners := closeListeners s |}).

Definition set_res (r : Response) : M E unit := fun s =>
  (Returned tt,
   {| world := world s; trace := trace s; nextHandle := nextHandle s;
      res := r; credentials := credentials s; clientId := clientId s;
      transportsToSessionId := transportsToSessionId s;
      closeListeners := closeListeners s |}).

Definition set_credentials (c : option BackstageCredentials) : M E unit :=
  fun s =>
  (Returned tt,
   {| world := world s; trace := trace s; nextHandle := nextHandle s;
      res := res s; credentials := c; clientId := clientId s;
      transportsToSessionId := transportsToSessionId s;
      closeListeners := closeListeners s |}).

Definition set_clientId (c : option string) : M E unit := fun s =>
  (Returned tt,
   {| world := world s; trace := trace s; nextHandle := nextHandle s;
      res := res s; credentials := credentials s; clientId := c;
      transportsToSessionId := transportsToSessionId s;
      closeListeners := closeListeners s |}).

Definition set_registry (m : gmap string SSEServerTransport) : M E unit :=
  fun s =>
  (Returned tt,
   {| world := world s; trace := trace s; nextHandle := nextHandle s;
      res := res s; credentials := credentials s; clientId := clientId s;
      transportsToSessionId := m;
      closeListeners := closeListeners s |}).

Definition get_store : M E (Store E) := fun s => (Returned s, s).

(** A collaborator call: run it on the collaborators' state, keep the new
    state, record call and answer, and return or rethrow the answer. *)
Definition call {A} (op : E -> Outcome A * E) (record : Outcome A -> Effect)
  : M E A := fun s =>
  let '(answer, w) := op (world s) in
  let s' := {| world := w; trace := trace s ++ [record answer];
               nextHandle := nextHandle s; res := res s;
               credentials := credentials s; clientId := clientId s;
               transportsToSessionId := transportsToSessionId s;
               closeListeners := closeListeners s |} in
  (answer, s').

(** The same for an SDK operation that also writes to the response. *)
Definition call_res (op : Response -> E -> Outcome unit * Response * E)
    (record : Outcome unit -> Effect) : M E unit := fun s =>
  let '(answer, r, w) := op (res s) (world s) in
  let s' := {| world := w; trace := trace s ++ [record answer];
               nextHandle := nextHandle s; res := r;
               credentials := credentials s; clientId := clientId s;
               transportsToSessionId := transportsToSessionId s;
               closeListeners := closeListeners s |} in
  (answer, s').

Definition now : M E Z := fun s =>
  let '(t, w) := Date_now svc (world s) in
  (Returned t,
   {| world := w; trace := trace s; nextHandle := nextHandle s;
      res := res s; credentials := credentials s; clientId := clientId s;
      transportsToSessionId := transportsToSessionId s;
      closeListeners := closeListeners s |}).

Definition uuid : M E string := fun s =>
  let '(u, w) := randomUUID svc (world s) in
  (Returned u,
   {| world := w; trace := trace s; nextHandle := nextHandle s;
      res := res s; credentials := credentials s; clientId := clientId s;
      transportsToSessionId := transportsToSessionId s;
      closeListeners := closeListeners s |}).

(** *** The auditor: a recording sink handing out fresh handles *)

Definition auditor_createEvent (ev : AuditEvent) : M E Handle := fun s =>
  (Returned (nextHandle s),
   {| world := world s;
      trace := trace s ++ [AuditorCreateEvent (nextHandle s) ev];
      nextHandle := S (nextHandle s);
      res := res s; credentials := credentials s; clientId := clientId s;
      transportsToSessionId := transportsToSessionId s;
      closeListeners := closeListeners s |}).

Definition event_success (h : Handle) (meta : option Meta) : M E unit :=
  emit (AuditorSuccess h meta).
Definition event_fail (h : Handle) (error : Thrown) (meta : option Meta)
  : M E unit :=
  emit (AuditorFail h error meta).

(** *** The Express response *)

Definition res_status (code : Z) : M E unit :=
  s ← get_store;
  emit (ResStatus code);;
  set_res {| statusCode := code; contentType := contentType (res s);
             headersSent := headersSent (res s); written := written (res s);
             finished := finished (res s) |}.

Definition res_contentType (type : string) : M E unit :=
  s ← get_store;
  emit (ResContentType type);;
  set_res {| statusCode := statusCode (res s); contentType := Some type;
             headersSent := headersSent (res s); written := written (res s);
             finished := finished (res s) |}.

Definition res_json (payload : Json) : M E unit :=
  s ← get_store;
  emit (ResJson payload);;
  set_res {| statusCode := statusCode (res s);
             contentType :=
               match contentType (res s) with
               | None => Some "application/json"
               | Some t => Some t
               end;
             headersSent := true;
             written := written (res s) ++ [JSON_stringify payload];
             finished := true |}.

Definition res_writeHead (code : Z) : M E unit :=
  s ← get_store;
  emit (ResWriteHead code);;
  set_res {| statusCode := code; contentType := contentType (res s);
             headersSent := true; written := written (res s);
             finished := finished (res s) |}.

Definition res_write (chunk : string) : M E unit :=
  s ← get_store;
  emit (ResWrite chunk);;
  set_res {| statusCode := statusCode (res s); contentType := contentType (res s);
             headersSent := true; written := written (res s) ++ [chunk];
             finished := finished (res s) |}.

Definition res_end (chunk : string) : M E unit :=
  s ← get_store;
  emit (ResEnd chunk);;
  set_res {| statusCode := statusCode (res s); contentType := contentType (res s);
             headersSent := true; written := written (res s) ++ [chunk];
             finished := true |}.

Definition res_on_close (l : CloseListener) : M E unit := fun s =>
  (Returned tt,
   {| world := world s; trace := trace s ++ [ResOnClose l];
      nextHandle := nextHandle s;
      res := res s; credentials := credentials s; clientId := clientId s;
      transportsToSessionId := transportsToSessionId s;
      closeListeners := closeListeners s ++ [l] |}).

(** [(credentials.principal as any).userEntityRef] as a property value *)
Definition principalOf (c : BackstageCredentials) : option Json :=
  JStr <$> userEntityRef (principal c).
(** [(credentials?.principal as any)?.userEntityRef] *)
Definition principalOfOpt (c : option BackstageCredentials) : option Json :=
  c ≫= principalOf.

Definition num (n : nat) : Json := JNum (Z.of_nat n).

(** ** [services/auditorUtils.ts]: [auditCreateEvent] *)
Definition auditCreateEvent (eventId : option string) (req : Request)
    (severityLevel : McpAuditSeverityLevel) (meta : option Meta) : M E Handle :=
  auditor_createEvent
    {| eventId := AuditorUtils.normalizedEventId eventId;
       severityLevel := severityLevel;
       request := Some req;
       meta := meta |}.

End Primitives.

(** ** [services/handleErrors.ts] *)

(** Modelled from the spec: [handleErrors], the error classifier that wraps
    the invocation handler, is imported by [McpService.ts] but its file is
    not part of the sources at hand.  Following the specification's error
    classifier: a not-found condition becomes a protocol error of the
    not-found class that keeps the message naming the offending
    identifier; every other failure becomes the generic internal error with
    the fixed message; a result is passed through. *)
Definition classify (error : Thrown) : Thrown :=
  match error with
  | JsError "NotFoundError" message => McpError NotFoundCode message
  | _ => McpError InternalErrorCode "Internal server error"
  end.

Definition handleErrors {E A} (fn : M E A) : M E A :=
  try_catch fn (fun error => throw (classify error)).

(** ** [services/McpService.ts] *)

Module McpService.
Section McpService.
Context {E : Type} (svc : Services E).

(** One entry of the [tools] array. *)
Definition toolOf (action : Action) : Json :=
  JObj [
    ("inputSchema", input (schema action));
    ("name", JStr (name action));
    ("description", JStr (description action));
    ("annotations", JObj [
       ("title", JStr (title action));
       ("destructiveHint", JBool (destructive (attributes action)));
       ("idempotentHint", JBool (idempotent (attributes action)));
       ("readOnlyHint", JBool (readOnly (attributes action)));
       ("openWorldHint", JBool false)])
  ].

(** The [ListToolsRequestSchema] handler of [getServer({ credentials })]. *)
Definition listTools (credentials : BackstageCredentials) : M E Json :=
  actions ← call (actions_list svc credentials) (ActionsList credentials);
  auditor_createEvent
    {| eventId := "mcp-tool-discovery";
       severityLevel := low;
       request := None;
       meta := Some [("toolCount", Some (num (length actions)));
                     ("principal", principalOf credentials)] |};;
  mret (JObj [("tools", JArr (map toolOf actions))]).

Definition notFoundMessage (toolName : string) : string :=
  "Action " +:+ String dquote (toolName +:+ String dquote " not found").

Definition fenced (output : Json) : string :=
  join nl ["```json"; JSON_stringify_indent output 2; "```"].

(** The function handed to [handleErrors] in the [CallToolRequestSchema]
    handler. *)
Definition callToolBody (credentials : BackstageCredentials)
    (params : CallToolParams) : M E Json :=
  executionStart ← now svc;
  let inputSize :=
    String.length (JSON_stringify (default (JObj []) (arguments params))) in
  executionEvent ← auditor_createEvent
    {| eventId := "mcp-tool-execution-request";
       severityLevel := medium;
       request := None;
       meta := Some [("toolName", Some (JStr (tool_name params)));
                     ("principal", principalOf credentials);
                     ("inputSize", Some (num inputSize))] |};
  try_catch
    (actions ← call (actions_list svc credentials) (ActionsList credentials);
     match List.find (fun a => String.eqb (name a) (tool_name params)) actions
     with
     | None =>
         auditor_createEvent
           {| eventId := "mcp-tool-not-found";
              severityLevel := medium;
              request := None;
              meta := Some [("toolName", Some (JStr (tool_name params)));
                            ("principal", principalOf credentials)] |};;
         throw (NotFoundError (notFoundMessage (tool_name params)))
     | Some action =>
         output ← call
           (actions_invoke svc (id action) (arguments params) credentials)
           (ActionsInvoke (id action) (arguments params) credentials);
         finish ← now svc;
         let duration := finish - executionStart in
         let outputSize := String.length (JSON_stringify output) in
         event_success executionEvent
           (Some [("duration", Some (JNum duration));
                  ("outputSize", Some (num outputSize));
                  ("principal", principalOf credentials)]);;
         mret (JObj [("content",
                      JArr [JObj [("type", JStr "text");
                                  ("text", JStr (fenced output))]])])
     end)
    (fun error =>
       finish ← now svc;
       let duration := finish - executionStart in
       event_fail executionEvent error
         (Some [("duration", Some (JNum duration));
                ("errorType", Some (JStr (errorType error)));
                ("errorMessage", Some (JStr (errorMessage error)));
                ("principal", principalOf credentials)]);;
       throw error).

(** The [CallToolRequestSchema] handler. *)
Definition callTool (credentials : BackstageCredentials)
    (params : CallToolParams) : M E Json :=
  handleErrors (callToolBody credentials params).

End McpService.
End McpService.

(** ** [routers/createStreamableRouter.ts] *)

Module createStreamableRouter.
Section createStreamableRouter.
Context {E : Type} (svc : Services E).

Definition internalErrorEnvelope : Json :=
  JObj [("jsonrpc", JStr "2.0");
        ("error", JObj [("code", JNum (-32603));
                        ("message", JStr "Internal server error")]);
        ("id", JNull)].

Definition methodNotAllowedEnvelope : Json :=
  JObj [("jsonrpc", JStr "2.0");
        ("error", JObj [("code", JNum (-32000));
                        ("message", JStr "Method not allowed.")]);
        ("id", JNull)].

(** The [try] block of [router.post('/')]. *)
Definition postTry (req : Request) (connectionStart : Z) : M E unit :=
  authAttemptEvent ← auditCreateEvent (Some "auth-attempt") req medium
    (Some [("transport", Some (JStr "streamable"));
           ("hasAuthHeader", Some (JBool (truthy (headers_authorization req))))]);
  creds ← call (httpAuth_credentials svc req) (HttpAuthCredentials req);
  set_credentials (Some creds);;
  event_success authAttemptEvent (Some [("principal", principalOf creds)]);;
  cid ← uuid svc;
  set_clientId (Some cid);;
  call_res (server_connect svc) ServerConnect;;
  connectionEvent ← auditCreateEvent (Some "connection-established") req medium
    (Some [("transport", Some (JStr "streamable"));
           ("clientId", Some (JStr cid));
           ("principal", principalOf creds)]);
  call_res (transport_handleRequest svc req) (TransportHandleRequest req);;
  res_on_close (StreamableClose req connectionStart (Some cid) (Some creds));;
  event_success connectionEvent None.

(** The [catch (error)] block of [router.post('/')]. *)
Definition postCatch (req : Request) (error : Thrown) : M E unit :=
  (if isError error then emit (LoggerError (error_message error))
   else mret tt);;
  s ← get_store;
  errorEvent ← auditCreateEvent (Some "http-error") req high
    (Some [("transport", Some (JStr "streamable"));
           ("clientId", JStr <$> clientId s);
           ("errorType", Some (JStr (if isError error then error_name error
                                     else "UnknownError")));
           ("errorMessage", Some (JStr (if isError error then error_message error
                                        else String_of error)));
           ("statusCode", Some (JNum 500));
           ("jsonrpcCode", Some (JNum (-32603)));
           ("principal", principalOfOpt (credentials s))]);
  s ← get_store;
  (if negb (headersSent (res s))
   then res_status 500;; res_json internalErrorEnvelope
   else mret tt);;
  event_fail errorEvent error None.

(** [router.post('/', ...)] *)
Definition post (req : Request) : M E unit :=
  connectionStart ← now svc;
  set_credentials None;;
  set_clientId None;;
  try_catch (postTry req connectionStart) (postCatch req).

(** [router.get('/', ...)] *)
Definition get (req : Request) : M E unit :=
  auditCreateEvent (Some "method-not-allowed") req low
    (Some [("method", Some (JStr "GET"));
           ("statusCode", Some (JNum 405));
           ("jsonrpcCode", Some (JNum (-32000)))]);;
  res_writeHead 405;;
  res_end (JSON_stringify methodNotAllowedEnvelope).

(** [router.delete('/', ...)] *)
Definition delete (req : Request) : M E unit :=
  auditCreateEvent (Some "method-not-allowed") req low
    (Some [("method", Some (JStr "DELETE"));
           ("statusCode", Some (JNum 405));
           ("jsonrpcCode", Some (JNum (-32000)))]);;
  res_writeHead 405;;
  res_end (JSON_stringify methodNotAllowedEnvelope).

(** The listener of [res.on('close', ...)]. *)
Definition onClose (req : Request) (connectionStart : Z)
    (clientId : option string) (credentials : option BackstageCredentials)
  : M E unit :=
  finish ← now svc;
  let duration := finish - connectionStart in
  auditCreateEvent (Some "connection-closed") req low
    (Some [("transport", Some (JStr "streamable"));
           ("clientId", JStr <$> clientId);
           ("duration", Some (JNum duration));
           ("principal", principalOfOpt credentials)]);;
  emit TransportClose;;
  emit ServerClose.

End createStreamableRouter.
End createStreamableRouter.

(** ** [routers/createSseRouter.ts] *)

Module createSseRouter.
Section createSseRouter.
Context {E : Type} (svc : Services E).

(** [transportsToSessionId.set / get / delete] on the router's [Map]. *)
Definition map_set (t : SSEServerTransport) : M E unit :=
  s ← get_store;
  emit (MapSet (sessionId t));;
  set_registry (<[sessionId t := t]> (transportsToSessionId s)).
Definition map_get (sid : string) : M E (option SSEServerTransport) :=
  s ← get_store;
  emit (MapGet sid);;
  mret (transportsToSessionId s !! sid).
Definition map_delete (sid : string) : M E unit :=
  s ← get_store;
  emit (MapDelete sid);;
  set_registry (base.delete sid (transportsToSessionId s)).

(** The [try] block of [router.get('/')]. *)
Definition getTry (req : Request) (connectionStart : Z) : M E unit :=
  authAttemptEvent ← auditCreateEvent (Some "auth-attempt") req medium
    (Some [("transport", Some (JStr "sse"));
           ("hasAuthHeader", Some (JBool (truthy (headers_authorization req))))]);
  creds ← call (httpAuth_credentials svc req) (HttpAuthCredentials req);
  set_credentials (Some creds);;
  event_success authAttemptEvent (Some [("principal", principalOf creds)]);;
  sid ← uuid svc;
  let transport :=
    {| sessionId := sid; endpoint := originalUrl req +:+ "/messages" |} in
  map_set transport;;
  connectionEvent ← auditCreateEvent (Some "connection-established") req medium
    (Some [("transport", Some (JStr "sse"));
           ("sessionId", Some (JStr (sessionId transport)));
           ("principal", principalOf creds)]);
  res_on_close (SseClose req connectionStart transport (Some creds));;
  call_res (server_connect svc) ServerConnect;;
  event_success connectionEvent None.

(** The [catch (error)] block of [router.get('/')]. *)
Definition getCatch (req : Request) (error : Thrown) : M E unit :=
  s ← get_store;
  auditCreateEvent (Some "connection-error") req high
    (Some [("transport", Some (JStr "sse"));
           ("errorType", Some (JStr (errorType error)));
           ("errorMessage", Some (JStr (errorMessage error)));
           ("principal", principalOfOpt (credentials s))]);;
  throw error.

(** [router.get('/', ...)] *)
Definition get (req : Request) : M E unit :=
  connectionStart ← now svc;
  set_credentials None;;
  try_catch (getTry req connectionStart) (getCatch req).

(** The listener of [res.on('close', ...)]. *)
Definition onClose (req : Request) (connectionStart : Z)
    (transport : SSEServerTransport)
    (credentials : option BackstageCredentials) : M E unit :=
  finish ← now svc;
  let duration := finish - connectionStart in
  auditCreateEvent (Some "connection-closed") req low
    (Some [("transport", Some (JStr "sse"));
           ("sessionId", Some (JStr (sessionId transport)));
           ("duration", Some (JNum duration));
           ("principal", principalOfOpt credentials)]);;
  map_delete (sessionId transport).

Definition noTransportMessage (sid : string) : string :=
  "No transport found for sessionId "
  +:+ String dquote (sid +:+ String dquote "").

(** [router.post('/messages', ...)] *)
Definition postMessages (req : Request) : M E unit :=
  let sessionId := query_sessionId req in
  if negb (truthy sessionId) then
    auditCreateEvent (Some "invalid-session") req medium
      (Some [("error", Some (JStr "sessionId is required"));
             ("statusCode", Some (JNum 400))]);;
    res_status 400;;
    res_contentType "text/plain";;
    res_write "sessionId is required"
  else
    let sid := default "" sessionId in
    transport ← map_get sid;
    match transport with
    | Some t =>
        call_res (transport_handlePostMessage svc t req)
                 (TransportHandlePostMessage sid req)
    | None =>
        auditCreateEvent (Some "invalid-session") req medium
          (Some [("sessionId", Some (JStr sid));
                 ("error", Some (JStr "No transport found for sessionId"));
                 ("statusCode", Some (JNum 400))]);;
        res_status 400;;
        res_contentType "text/plain";;
        res_write (noTransportMessage sid)
    end.

End createSseRouter.
End createSseRouter.

(** ** A concrete set of collaborators

    Used to run the handlers on explicit inputs.  The collaborators' state
    is a tick counter; authentication succeeds exactly for requests with an
    authorization header; the catalog has two actions, of which the
    second fails when invoked. *)

Module Demo.

Definition guest : BackstageCredentials :=
  {| principal := {| userEntityRef := Some "user:default/guest" |} |}.

Definition createRepo : Action :=
  {| id := "scaffolder:create-repo";
     name := "create-repo";
     title := "Create repository";
     description := "Creates a repository";
     schema := {| input := JObj [("type", JStr "object")];
                  output := JObj [("type", JStr "object")] |};
     attributes := {| destructive := false; idempotent := false;
                      readOnly := false |} |}.

Definition dropRepo : Action :=
  {| id := "scaffolder:drop-repo";
     name := "drop-repo";
     title := "Delete repository";
     description := "Deletes a repository";
     schema := {| input := JObj [("type", JStr "object")];
                  output := JNull |};
     attributes := {| destructive := true; idempotent := true;
                      readOnly := false |} |}.

Definition catalog : list Action := [createRepo; dropRepo].

Definition createRepoOutput : Json :=
  JObj [("url", JStr "https://example.com/x")].

Definition services : Services nat :=
  {| httpAuth_credentials := fun req w =>
       if truthy (headers_authorization req) then (Returned guest, w)
       else (Threw (JsError "AuthenticationError" "Missing credentials"), w);
     actions_list := fun _ w => (Returned catalog, w);
     actions_invoke := fun id _ _ w =>
       if String.eqb id "scaffolder:create-repo"
       then (Returned createRepoOutput, w)
       else (Threw (JsError "Error" "backend unavailable"), w);
     Date_now := fun w => (1000 + Z.of_nat w, S w);
     randomUUID := fun w => ("uuid-" +:+ pretty w, S w);
     server_connect := fun r w => (Returned tt, r, w);
     transport_handleRequest := fun _ r w =>
       (Returned tt,
        {| statusCode := 200; contentType := Some "application/json";
           headersSent := true; written := written r ++ ["{}"];
           finished := true |}, w);
     transport_handlePostMessage := fun _ _ r w =>
       (Returned tt,
        {| statusCode := 202; contentType := contentType r;
           headersSent := true; written := written r ++ ["Accepted"];
           finished := true |}, w) |}.

Definition store0 : Store nat :=
  {| world := 0%nat; trace := []; nextHandle := 0%nat; res := freshResponse;
     credentials := None; clientId := None;
     transportsToSessionId := ∅; closeListeners := [] |}.

Definition request (authorization sessionId : option string) (body : Json)
  : Request :=
  {| headers_authorization := authorization; query_sessionId := sessionId;
     originalUrl := "/api/mcp-actions/v1/sse"; body := body |}.

Definition anonymous : Request := request None None JNull.
Definition authenticated : Request := request (Some "Bearer token") None JNull.

Definition callCreateRepo : CallToolParams :=
  {| tool_name := "create-repo";
     arguments := Some (JObj [("name", JStr "x")]) |}.
Definition callMissing : CallToolParams :=
  {| tool_name := "does-not-exist"; arguments := None |}.

End Demo.

(** ** Vocabulary of the statements *)

(** How an effect completes the audit handle [h]: [Some true] for
    [success], [Some false] for [fail]. *)
Definition completion (h : Handle) (eff : Effect) : option bool :=
  match eff with
  | AuditorSuccess h' _ => if Nat.eqb h h' then Some true else None
  | AuditorFail h' _ _ => if Nat.eqb h h' then Some false else None
  | _ => None
  end.

Definition completions (h : Handle) (effects : list Effect) : list bool :=
  omap (completion h) effects.

Definition returned {A} (out : Outcome A) : bool :=
  match out with Returned _ => true | Threw _ => false end.

Definition markedFailed (h : Handle) (effects : list Effect) : bool :=
  existsb (fun eff => match eff with
                      | AuditorFail h' _ _ => Nat.eqb h h'
                      | _ => false
                      end) effects.

Definition isInvoke (eff : Effect) : bool :=
  match eff with ActionsInvoke _ _ _ _ => true | _ => false end.

Definition isPostMessage (eff : Effect) : bool :=
  match eff with TransportHandlePostMessage _ _ _ => true | _ => false end.

Definition writesResponse (eff : Effect) : bool :=
  match eff with
  | ResStatus _ | ResContentType _ | ResJson _ | ResWriteHead _
  | ResWrite _ | ResEnd _ => true
  | _ => false
  end.

(** The store in which the [try] block of [router.post('/')] starts: the
    clock has been read and both locals are still [undefined]. *)
Definition postInit {E} (s : Store E) (w0 : E) : Store E :=
  {| world := w0; trace := trace s; nextHandle := nextHandle s; res := res s;
     credentials := None; clientId := None;
     transportsToSessionId := transportsToSessionId s;
     closeListeners := closeListeners s |}.

(** [res.status(500).json({jsonrpc: '2.0', error: {code: -32603, message:
    'Internal server error'}, id: null})] applied to a response. *)
Definition respondInternalError (r : Response) : Response :=
  {| statusCode := 500;
     contentType := match contentType r with
                    | None => Some "application/json"
                    | Some t => Some t
                    end;
     headersSent := true;
     written := written r
       ++ [JSON_stringify
             (JObj [("jsonrpc", JStr "2.0");
                    ("error", JObj [("code", JNum (-32603));
                                    ("message", JStr "Internal server error")]);
                    ("id", JNull)])];
     finished := true |}.

(** The body both method-not-allowed handlers send. *)
Definition methodNotAllowedPayload : string :=
  JSON_stringify
    (JObj [("jsonrpc", JStr "2.0");
           ("error", JObj [("code", JNum (-32000));
                           ("message", JStr "Method not allowed.")]);
           ("id", JNull)]).

(** The same body with the message the way the specification spells it. *)
Definition specMethodNotAllowedPayload : string :=
  JSON_stringify
    (JObj [("jsonrpc", JStr "2.0");
           ("error", JObj [("code", JNum (-32000));
                           ("message", JStr "Method not allowed")]);
           ("id", JNull)]).

Definition respondMethodNotAllowed (r : Response) : Response :=
  {| statusCode := 405; contentType := contentType r; headersSent := true;
     written := written r ++ [methodNotAllowedPayload]; finished := true |}.

(** Two stores that agree on everything but the trace, the handle counter
    and the response: collaborators, locals, session registry and
    listeners are untouched. *)
Definition sameSession {E} (s s' : Store E) : Prop :=
  world s' = world s
  /\ credentials s' = credentials s
  /\ clientId s' = clientId s
  /\ transportsToSessionId s' = transportsToSessionId s
  /\ closeListeners s' = closeListeners s.

(** What a run of a method-not-allowed handler looks like. *)
Definition methodNotAllowedRun {E} (handler : Request -> M E unit)
    (req : Request) (s : Store E) : Prop :=
  exists (ev : AuditEvent) (s' : Store E),
    run (handler req) s = (Returned tt, s')
    /\ trace s' = trace s ++ [AuditorCreateEvent (nextHandle s) ev;
                              ResWriteHead 405;
                              ResEnd methodNotAllowedPayload]
    /\ eventId ev = "mcp-method-not-allowed"
    /\ severityLevel ev = low
    /\ res s' = respondMethodNotAllowed (res s)
    /\ sameSession s s'.

(** [res.status(400).contentType('text/plain').write(text)] applied to a
    response. *)
Definition respondBadRequest (r : Response) (text : string) : Response :=
  {| statusCode := 400; contentType := Some "text/plain"; headersSent := true;
     written := written r ++ [text]; finished := finished r |}.

(** Strings of ASCII characters, on which [KebabCase] follows the
    library character by character, and strings with at least one
    character that is no separator. *)
Definition ascii_only (s : string) : bool :=
  KebabCase.all_chars (fun c => (KebabCase.code c <? 128)%N) s.

Definition has_word (s : string) : bool :=
  negb (KebabCase.all_chars KebabCase.is_separator s).

(** Requests and stores of the concrete runs. *)
Definition emptySessionId : Request := Demo.request None (Some "") JNull.
Definition unknownSession : Request := Demo.request None (Some "abc") JNull.
Definition knownSession : Request := Demo.request None (Some "s-1") JNull.

Definition storeWithSession : Store nat :=
  {| world := 0%nat; trace := []; nextHandle := 0%nat; res := freshResponse;
     credentials := None; clientId := None;
     transportsToSessionId :=
       {[ "s-1" := {| sessionId := "s-1";
                      endpoint := "/api/mcp-actions/v1/sse/messages" |} ]};
     closeListeners := [] |}.

(** ** Entry points

    Everything the two routers and the protocol server register: the
    route handlers, the two request handlers of [getServer] and the two
    [close] listeners, the latter with the values their closures hold. *)

Inductive EntryPoint :=
| ListTools (credentials : BackstageCredentials)
| CallTool (credentials : BackstageCredentials) (params : CallToolParams)
| StreamablePost (req : Request)
| StreamableGet (req : Request)
| StreamableDelete (req : Request)
| SseGet (req : Request)
| SseMessages (req : Request)
| Closed (listener : CloseListener).

Section EntryPoints.
Context {E : Type} (svc : Services E).

(** The [close] event of a response reaches the listener registered on it. *)
Definition fireClose (listener : CloseListener) : M E unit :=
  match listener with
  | StreamableClose req connectionStart clientId credentials =>
      createStreamableRouter.onClose svc req connectionStart clientId credentials
  | SseClose req connectionStart transport credentials =>
      createSseRouter.onClose svc req connectionStart transport credentials
  end.

Definition enter (ep : EntryPoint) : M E unit :=
  match ep with
  | ListTools credentials => McpService.listTools svc credentials;; mret tt
  | CallTool credentials params =>
      McpService.callTool svc credentials params;; mret tt
  | StreamablePost req => createStreamableRouter.post svc req
  | StreamableGet req => createStreamableRouter.get req
  | StreamableDelete req => createStreamableRouter.delete req
  | SseGet req => createSseRouter.get svc req
  | SseMessages req => createSseRouter.postMessages svc req
  | Closed listener => fireClose listener
  end.

End EntryPoints.

(** ** Vocabulary of the further properties *)

(** [R] relates the store before a run of [m] to the store after it. *)
Definition through {E A} (R : Store E -> Store E -> Prop) (m : M E A) : Prop :=
  forall s : Store E, R s (snd (run m s)).

(** The run added effects that all satisfy [P], and nothing else, to the
    trace. *)
Definition emitting {E} (P : Effect -> bool) (s s' : Store E) : Prop :=
  exists effects : list Effect,
    trace s' = trace s ++ effects /\ forallb P effects = true.

(** The event ids the sources create, each with the severity it is
    created with. *)
Definition eventTable : list (string * McpAuditSeverityLevel) :=
  [("mcp-auth-attempt", medium);
   ("mcp-connection-established", medium);
   ("mcp-connection-closed", low);
   ("mcp-http-error", high);
   ("mcp-method-not-allowed", low);
   ("mcp-connection-error", high);
   ("mcp-invalid-session", medium);
   ("mcp-tool-discovery", low);
   ("mcp-tool-execution-request", medium);
   ("mcp-tool-not-found", medium)].

Definition severity_eqb (a b : McpAuditSeverityLevel) : bool :=
  match a, b with
  | low, low | medium, medium | high, high | critical, critical => true
  | _, _ => false
  end.

Definition tabled (eff : Effect) : bool :=
  match eff with
  | AuditorCreateEvent _ ev =>
      existsb (fun row => String.eqb (eventId ev) (fst row)
                          && severity_eqb (severityLevel ev) (snd row))
        eventTable
  | _ => true
  end.

(** A projection of the store has the same value after the run. *)
Definition keeping {E X} (f : Store E -> X) (s s' : Store E) : Prop :=
  f s' = f s.

(** If the registry was keyed by session id before, it is afterwards. *)
Definition keepingKeys {E} (s s' : Store E) : Prop :=
  (forall (k : string) (t : SSEServerTransport),
      transportsToSessionId s !! k = Some t -> sessionId t = k) ->
  forall (k : string) (t : SSEServerTransport),
    transportsToSessionId s' !! k = Some t -> sessionId t = k.

(** The entry points that resolve credentials, and those that write to
    the session registry. *)
Definition authenticates (ep : EntryPoint) : bool :=
  match ep with StreamablePost _ | SseGet _ => true | _ => false end.

Definition registers (ep : EntryPoint) : bool :=
  match ep with
  | SseGet _ | Closed (SseClose _ _ _ _) => true
  | _ => false
  end.

Definition isAuthCall (eff : Effect) : bool :=
  match eff with HttpAuthCredentials _ _ => true | _ => false end.

Definition isMapEffect (eff : Effect) : bool :=
  match eff with MapSet _ | MapGet _ | MapDelete _ => true | _ => false end.

(** Collaborators in which the listing, the connection and the request
    handling of the SDK answer as given; [sendsHeaders] says whether the
    request handling commits the response before it answers. *)
Definition faulty (listing : Outcome (list Action))
    (connect handle : Outcome unit) (sendsHeaders : bool) : Services nat :=
  {| httpAuth_credentials := httpAuth_credentials Demo.services;
     actions_list := fun _ w => (listing, w);
     actions_invoke := actions_invoke Demo.services;
     Date_now := Date_now Demo.services;
     randomUUID := randomUUID Demo.services;
     server_connect := fun r w => (connect, r, w);
     transport_handleRequest := fun _ r w =>
       (handle,
        if sendsHeaders
        then {| statusCode := 200; contentType := Some "text/event-stream";
                headersSent := true; written := written r;
                finished := finished r |}
        else r, w);
     transport_handlePostMessage :=
       transport_handlePostMessage Demo.services |}.

Definition unavailable : Thrown := JsError "Error" "backend unavailable".

(** The ids of the audit events created, in order. *)
Definition createdEvents (effects : list Effect) : list string :=
  omap (fun eff => match eff with
                   | AuditorCreateEvent _ ev => Some (eventId ev)
                   | _ => None
                   end) effects.

(** A second action that carries the name of [Demo.createRepo]. *)
Definition createRepoTwin : Action :=
  {| id := "legacy:create-repo";
     name := "create-repo";
     title := "Create repository (legacy)";
     description := "Creates a repository the old way";
     schema := {| input := JObj []; output := JNull |};
     attributes := {| destructive := true; idempotent := false;
                      readOnly := false |} |}.

Definition twinCatalog : list Action :=
  [Demo.dropRepo; Demo.createRepo; createRepoTwin].

Definition twins : Services nat :=
  faulty (Returned twinCatalog) (Returned tt) (Returned tt) false.

Definition offline : Services nat :=
  faulty (Threw unavailable) (Returned tt) (Returned tt) false.

(** The SDK's request handling throws after it has committed the response. *)
Definition brokenStream : Services nat :=
  faulty (Returned Demo.catalog) (Returned tt) (Threw unavailable) true.

(** Connecting the protocol server to the transport throws. *)
Definition brokenConnect : Services nat :=
  faulty (Returned Demo.catalog) (Threw unavailable) (Returned tt) false.

(** The transport the legacy [GET /] handler builds for a request. *)
Definition transportFor (req : Request) (sid : string) : SSEServerTransport :=
  {| sessionId := sid; endpoint := originalUrl req +:+ "/messages" |}.

Definition messageFor (sid : string) : Request :=
  Demo.request None (Some sid) JNull.

Definition isCompletion (eff : Effect) : bool :=
  match eff with
  | AuditorSuccess _ _ | AuditorFail _ _ _ => true
  | _ => false
  end.

(** * Proofs *)

(** Unfolds the monad and the primitives, leaving the collaborators' calls. *)
Ltac unfold_m :=
  unfold run, handleErrors, try_catch, throw, call, call_res, now, uuid,
    auditCreateEvent, auditor_createEvent, event_success, event_fail, emit,
    res_status, res_json, res_writeHead, res_write, res_end, res_contentType,
    res_on_close, set_res, set_credentials, set_clientId,
    set_registry, get_store, mbind, M_bind, mret, M_ret.

(** Closes a goal [trace s' = trace s ++ ...] after a run. *)
Ltac trace_eq := repeat rewrite <- app_assoc; reflexivity.

(** ** The monad *)

Lemma run_ret {E A} (a : A) (s : Store E) : run (mret a) s = (Returned a, s).
Proof. reflexivity. Qed.

Lemma run_bind_returned {E A B} (m : M E A) (f : A -> M E B)
    (s s' : Store E) (a : A) :
  run m s = (Returned a, s') -> run (m ≫= f) s = run (f a) s'.
Proof. unfold run, mbind, M_bind. intros ->. reflexivity. Qed.

Lemma run_bind_threw {E A B} (m : M E A) (f : A -> M E B)
    (s s' : Store E) (e : Thrown) :
  run m s = (Threw e, s') -> run (m ≫= f) s = (Threw e, s').
Proof. unfold run, mbind, M_bind. intros ->. reflexivity. Qed.

Lemma run_try_returned {E A} (body : M E A) (handler : Thrown -> M E A)
    (s s' : Store E) (a : A) :
  run body s = (Returned a, s') ->
  run (try_catch body handler) s = (Returned a, s').
Proof. unfold run, try_catch. intros ->. reflexivity. Qed.

Lemma run_try_threw {E A} (body : M E A) (handler : Thrown -> M E A)
    (s s' : Store E) (e : Thrown) :
  run body s = (Threw e, s') ->
  run (try_catch body handler) s = run (handler e) s'.
Proof. unfold run, try_catch. intros ->. reflexivity. Qed.

Lemma run_handleErrors {E A} (fn : M E A) (s s' : Store E) (out : Outcome A) :
  run fn s = (out, s') ->
  run (handleErrors fn) s
  = (match out with
     | Returned a => Returned a
     | Threw error => Threw (classify error)
     end, s').
Proof.
  intros Hfn. unfold handleErrors. destruct out as [a|error].
  - apply run_try_returned, Hfn.
  - rewrite (run_try_threw _ _ _ _ _ Hfn). reflexivity.
Qed.

(** ** [just-kebab-case] *)

Module KebabFacts.
Import KebabCase.

Lemma separator_hyphen : is_separator hyphen = true.
Proof. reflexivity. Qed.

Lemma not_separator_not_hyphen c :
  is_separator c = false -> Ascii.eqb c hyphen = false.
Proof.
  intros H. destruct (Ascii.eqb_spec c hyphen) as [->|]; [|reflexivity].
  rewrite separator_hyphen in H. discriminate.
Qed.

Lemma word_char_inv c :
  word_char c = true ->
  is_upper c = false /\ is_separator c = false /\ is_space c = false
  /\ Ascii.eqb c hyphen = false.
Proof.
  unfold word_char. intros H. apply andb_prop in H as [Hu Hs].
  apply negb_true_iff in Hu, Hs.
  repeat split; auto using not_separator_not_hyphen.
  unfold is_separator in Hs. apply orb_false_iff in Hs. tauto.
Qed.

Lemma hyphen_not_upper : is_upper hyphen = false.
Proof. reflexivity. Qed.
Lemma hyphen_not_space : is_space hyphen = false.
Proof. reflexivity. Qed.

Lemma toLowerCase_not_upper c : is_upper (toLowerCase c) = false.
Proof.
  destruct c as [[] [] [] [] [] [] [] []]; reflexivity.
Qed.

(** *** Kebab-case strings are fixed by every stage *)

Lemma kebab_chars p s :
  kebab_from p s = true ->
  all_chars (fun c => negb (is_upper c) && negb (is_space c)) s = true.
Proof.
  revert p. induction s as [|c r IH]; intros p H; [reflexivity|].
  simpl in *. destruct (Ascii.eqb_spec c hyphen) as [->|Hne].
  - apply andb_prop in H as [_ H]. rewrite (IH _ H). reflexivity.
  - apply andb_prop in H as [Hw H]. rewrite (IH _ H).
    apply word_char_inv in Hw as (-> & _ & -> & _). reflexivity.
Qed.

Lemma replaceCapitalPlusLower_cons c r :
  is_upper c = false ->
  replaceCapitalPlusLower (String c r) = String c (replaceCapitalPlusLower r).
Proof. intros H. destruct r; simpl; rewrite ?H; reflexivity. Qed.

Lemma replaceCapitalPlusLower_id s :
  no_upper s = true -> replaceCapitalPlusLower s = s.
Proof.
  induction s as [|c r IH]; [reflexivity|].
  intros H. unfold no_upper in H. simpl in H. apply andb_prop in H as [Hc Hr].
  apply negb_true_iff in Hc.
  rewrite replaceCapitalPlusLower_cons by assumption.
  f_equal. apply IH, Hr.
Qed.

Lemma replaceCapitals_id b s :
  no_upper s = true -> replaceCapitals b s = s.
Proof.
  revert b. induction s as [|c r IH]; intros b; [reflexivity|].
  unfold no_upper. simpl. intros H. apply andb_prop in H as [Hc Hr].
  apply negb_true_iff in Hc. rewrite Hc. f_equal. apply IH, Hr.
Qed.

Lemma trimEnd_id s :
  all_chars (fun c => negb (is_space c)) s = true -> trimEnd s = s.
Proof.
  induction s as [|c r IH]; [reflexivity|].
  simpl. intros H. apply andb_prop in H as [Hc Hr].
  apply negb_true_iff in Hc. rewrite (IH Hr), Hc.
  destruct r; reflexivity.
Qed.

Lemma trim_id s :
  all_chars (fun c => negb (is_space c)) s = true -> trim s = s.
Proof.
  intros H. unfold trim.
  assert (trimStart s = s) as ->.
  { destruct s as [|c r]; [reflexivity|]. simpl in *.
    apply andb_prop in H as [Hc _]. apply negb_true_iff in Hc.
    rewrite Hc. reflexivity. }
  apply trimEnd_id, H.
Qed.

Lemma all_chars_impl (P Q : ascii -> bool) s :
  (forall c, P c = true -> Q c = true) ->
  all_chars P s = true -> all_chars Q s = true.
Proof.
  intros HPQ. induction s as [|c r IH]; [reflexivity|].
  simpl. intros H. apply andb_prop in H as [Hc Hr].
  rewrite (HPQ _ Hc), (IH Hr). reflexivity.
Qed.

(** *** [split] followed by [join] *)

Lemma split_not_nil b s : split b s <> [].
Proof.
  revert b. induction s as [|c r IH]; intros b; simpl; [discriminate|].
  destruct (is_separator c).
  - destruct b; [apply IH|discriminate].
  - destruct (split false r); discriminate.
Qed.

Lemma join_split_separator b c r :
  is_separator c = true ->
  join "-" (split b (String c r))
  = if b then join "-" (split true r)
    else String hyphen (join "-" (split true r)).
Proof.
  intros H. simpl. rewrite H. destruct b; [reflexivity|].
  unfold join. simpl.
  destruct (split true r) eqn:Hs; [|reflexivity].
  exfalso. exact (split_not_nil _ _ Hs).
Qed.

Lemma join_split_word b c r :
  is_separator c = false ->
  join "-" (split b (String c r)) = String c (join "-" (split false r)).
Proof.
  intros H. simpl. rewrite H.
  destruct (split false r) as [|f fs] eqn:Hs.
  - exfalso. exact (split_not_nil _ _ Hs).
  - unfold join. simpl. destruct fs; reflexivity.
Qed.

Lemma join_split_kebab p b s :
  kebab_from p s = true -> (b = true -> p = true) ->
  join "-" (split b s) = s.
Proof.
  revert p b. induction s as [|c r IH]; intros p b H Hb; [reflexivity|].
  simpl in H. destruct (Ascii.eqb_spec c hyphen) as [->|Hne].
  - apply andb_prop in H as [Hp H]. apply negb_true_iff in Hp.
    assert (b = false) as ->.
    { destruct b; [|reflexivity].
      rewrite Hb in Hp by reflexivity. discriminate. }
    rewrite join_split_separator by apply separator_hyphen.
    f_equal. apply (IH true true H). reflexivity.
  - apply andb_prop in H as [Hw H].
    apply word_char_inv in Hw as (_ & Hsep & _ & _).
    rewrite join_split_word by assumption.
    f_equal. apply (IH false false H). discriminate.
Qed.

Lemma dropTrailingHyphen_kebab p s :
  kebab_from p s = true -> dropTrailingHyphen s = s.
Proof.
  revert p. induction s as [|c r IH]; intros p H; [reflexivity|].
  simpl in *. destruct (Ascii.eqb_spec c hyphen) as [->|Hne].
  - apply andb_prop in H as [_ H]. simpl.
    assert (all_space r = false) as ->.
    { destruct r as [|d r']; [discriminate|]. simpl in *.
      destruct (Ascii.eqb d hyphen) eqn:Hd; [discriminate|].
      apply andb_prop in H as [Hw _].
      apply word_char_inv in Hw as (_ & _ & -> & _). reflexivity. }
    f_equal. apply (IH _ H).
  - apply andb_prop in H as [_ H]. simpl. f_equal. apply (IH _ H).
Qed.

Lemma kebabCase_kebab s : is_kebab s = true -> kebabCase s = s.
Proof.
  intros H. unfold is_kebab in H. pose proof (kebab_chars _ _ H) as Hchars.
  assert (no_upper s = true) as Hup.
  { revert Hchars. apply all_chars_impl. intros c Hc.
    apply andb_prop in Hc. tauto. }
  assert (all_chars (fun c => negb (is_space c)) s = true) as Hsp.
  { revert Hchars. apply all_chars_impl. intros c Hc.
    apply andb_prop in Hc. tauto. }
  unfold kebabCase.
  rewrite replaceCapitalPlusLower_id, replaceCapitals_id, trim_id by assumption.
  rewrite (join_split_kebab true false s H) by discriminate.
  assert (dropLeadingHyphen s = s) as ->.
  { destruct s as [|c r]; [reflexivity|]. simpl in *.
    destruct (Ascii.eqb c hyphen); [discriminate|reflexivity]. }
  apply (dropTrailingHyphen_kebab _ _ H).
Qed.

(** *** Every result of [kebabCase] is empty or in kebab case *)

Lemma replaceCapitals_no_upper b s : no_upper (replaceCapitals b s) = true.
Proof.
  revert b. induction s as [|c r IH]; intros b; [reflexivity|].
  simpl. destruct (is_upper c) eqn:Hc.
  - destruct b; unfold no_upper in *; simpl;
      rewrite toLowerCase_not_upper, IH; reflexivity.
  - unfold no_upper in *. simpl. rewrite Hc, IH. reflexivity.
Qed.

Lemma trimStart_all P s :
  all_chars P s = true -> all_chars P (trimStart s) = true.
Proof.
  induction s as [|c r IH]; [reflexivity|].
  intros H. simpl. destruct (is_space c); [|assumption].
  simpl in H. apply andb_prop in H as [_ H]. auto.
Qed.

Lemma trimEnd_all P s :
  all_chars P s = true -> all_chars P (trimEnd s) = true.
Proof.
  induction s as [|c r IH]; [reflexivity|].
  intros H. simpl in H. apply andb_prop in H as [Hc Hr].
  specialize (IH Hr). simpl.
  destruct (trimEnd r) as [|d r'].
  - destruct (is_space c); simpl; rewrite ?Hc; reflexivity.
  - simpl in *. rewrite Hc, IH. reflexivity.
Qed.

Lemma join_split_hyphenated b s :
  no_upper s = true -> hyphenated_from b (join "-" (split b s)) = true.
Proof.
  revert b. induction s as [|c r IH]; intros b H; [reflexivity|].
  unfold no_upper in H. simpl in H. apply andb_prop in H as [Hc Hr].
  destruct (is_separator c) eqn:Hsep.
  - rewrite join_split_separator by assumption.
    destruct b; [apply IH, Hr|]. simpl. apply IH, Hr.
  - rewrite join_split_word by assumption. simpl.
    rewrite (not_separator_not_hyphen _ Hsep).
    unfold word_char. rewrite Hc, Hsep. simpl. apply IH, Hr.
Qed.

Lemma dropLeadingHyphen_hyphenated s :
  hyphenated_from false s = true ->
  hyphenated_from true (dropLeadingHyphen s) = true.
Proof.
  destruct s as [|c r]; [reflexivity|]. simpl.
  destruct (Ascii.eqb c hyphen) eqn:Hc; simpl.
  - tauto.
  - rewrite Hc. tauto.
Qed.

Lemma dropTrailingHyphen_not_empty s :
  hyphenated_from true s = true -> s <> "" -> dropTrailingHyphen s <> "".
Proof.
  destruct s as [|c r]; [congruence|]. simpl.
  destruct (Ascii.eqb c hyphen); simpl; discriminate.
Qed.

Lemma dropTrailingHyphen_shape p s :
  hyphenated_from p s = true ->
  dropTrailingHyphen s = "" \/ kebab_from p (dropTrailingHyphen s) = true.
Proof.
  revert p. induction s as [|c r IH]; intros p H; [left; reflexivity|].
  simpl in H. simpl. destruct (Ascii.eqb c hyphen) eqn:Hc; simpl.
  - apply andb_prop in H as [Hp H].
    destruct (all_space r) eqn:Hsp; [left; reflexivity|].
    right. simpl. rewrite Hc, Hp. simpl.
    destruct (IH _ H) as [Hempty|Hk]; [|assumption].
    exfalso. apply (dropTrailingHyphen_not_empty r H); [|assumption].
    intros ->. discriminate.
  - apply andb_prop in H as [Hw H].
    right. simpl. rewrite Hc, Hw. simpl.
    destruct (IH _ H) as [->|Hk]; [reflexivity|assumption].
Qed.

Lemma kebabCase_shape s : kebabCase s = "" \/ is_kebab (kebabCase s) = true.
Proof.
  unfold kebabCase, is_kebab, trim.
  apply dropTrailingHyphen_shape, dropLeadingHyphen_hyphenated,
    join_split_hyphenated.
  apply trimEnd_all, trimStart_all, replaceCapitals_no_upper.
Qed.

Lemma prefix_cons a p b s :
  String.prefix (String a p) (String b s) = true ->
  a = b /\ String.prefix p s = true.
Proof.
  intros H.
  change (match ascii_dec a b with
          | left _ => String.prefix p s
          | right _ => false
          end = true) in H.
  destruct (ascii_dec a b); [auto|discriminate].
Qed.

Lemma startsWith_mcp k :
  startsWith k "mcp-" = true -> exists tail, k = "mcp-" +:+ tail.
Proof.
  unfold startsWith. intros H.
  destruct k as [|c1 k]; [discriminate H|]. apply prefix_cons in H as [<- H].
  destruct k as [|c2 k]; [discriminate H|]. apply prefix_cons in H as [<- H].
  destruct k as [|c3 k]; [discriminate H|]. apply prefix_cons in H as [<- H].
  destruct k as [|c4 k]; [discriminate H|]. apply prefix_cons in H as [<- H].
  exists k. reflexivity.
Qed.

Lemma prefix_same a p s :
  String.prefix (String a p) (String a s) = String.prefix p s.
Proof.
  change (String.prefix (String a p) (String a s))
    with (match ascii_dec a a with
          | left _ => String.prefix p s
          | right _ => false
          end).
  destruct (ascii_dec a a); [reflexivity|congruence].
Qed.

Lemma startsWith_mcp_append tail : startsWith ("mcp-" +:+ tail) "mcp-" = true.
Proof.
  unfold startsWith.
  change ("mcp-" +:+ tail)
    with (String "m" (String "c" (String "p" (String "-" tail)))).
  rewrite !prefix_same. destruct tail; reflexivity.
Qed.
End KebabFacts.

(** ** [auditCreateEvent] *)

Section EventId.
Import KebabCase KebabFacts AuditorUtils.

Lemma normalizedEventId_truthy (str : string) :
  str <> "" ->
  normalizedEventId (Some str)
  = if startsWith (kebabCase str) "mcp-" then kebabCase str
    else "mcp-" +:+ kebabCase str.
Proof.
  intros Hne. unfold normalizedEventId.
  destruct str as [|c r]; [congruence|]. cbn [truthy].
  destruct (startsWith (kebabCase (String c r)) "mcp-"); reflexivity.
Qed.

Lemma normalizedEventId_falsy (eventId : option string) :
  truthy eventId = false -> normalizedEventId eventId = UNKNOWN_MCP_EVENT.
Proof.
  destruct eventId as [[|c r]|]; try discriminate; reflexivity.
Qed.

Lemma normalizedEventId_shape (eventId : option string) :
  exists tail : string,
    normalizedEventId eventId = "mcp-" +:+ tail
    /\ (tail = "" \/ is_kebab tail = true).
Proof.
  destruct (truthy eventId) eqn:Ht.
  - destruct eventId as [[|c r]|]; try discriminate.
    rewrite normalizedEventId_truthy by discriminate.
    destruct (kebabCase_shape (String c r)) as [Hk|Hk];
      destruct (startsWith (kebabCase (String c r)) "mcp-") eqn:Hp.
    + rewrite Hk in Hp. discriminate.
    + exists (kebabCase (String c r)). auto.
    + destruct (startsWith_mcp _ Hp) as [tail Htail].
      exists tail. split; [assumption|]. right.
      rewrite Htail in Hk. exact Hk.
    + exists (kebabCase (String c r)). auto.
  - rewrite normalizedEventId_falsy by assumption.
    exists "unknown-event". split; [reflexivity|right; reflexivity].
Qed.

Lemma normalizedEventId_fixed (w : string) :
  is_kebab w = true -> normalizedEventId (Some ("mcp-" +:+ w)) = "mcp-" +:+ w.
Proof.
  intros Hw. rewrite normalizedEventId_truthy by discriminate.
  rewrite (kebabCase_kebab ("mcp-" +:+ w)) by exact Hw.
  rewrite startsWith_mcp_append. reflexivity.
Qed.
End EventId.


(** *** Inputs with a word character are never kebab-cased to nothing *)

Section Words.
Import KebabCase KebabFacts AuditorUtils.

Lemma upper_not_separator c :
  is_upper c = true ->
  is_separator c = false /\ is_separator (toLowerCase c) = false.
Proof.
  destruct c as [[] [] [] [] [] [] [] []]; intros H;
    try discriminate H; split; reflexivity.
Qed.

Lemma separator_not_upper c : is_separator c = true -> is_upper c = false.
Proof.
  intros Hsep. destruct (is_upper c) eqn:Hup; [|reflexivity].
  apply upper_not_separator in Hup as [Hc _]. congruence.
Qed.

Lemma space_is_separator c : is_space c = true -> is_separator c = true.
Proof. unfold is_separator. intros ->. reflexivity. Qed.

Lemma all_space_separators s :
  all_space s = true -> all_chars is_separator s = true.
Proof.
  induction s as [|c r IH]; [reflexivity|]. simpl. intros H.
  apply andb_prop in H as [Hc Hr].
  rewrite (space_is_separator _ Hc), (IH Hr). reflexivity.
Qed.

Lemma word_replaceCapitalPlusLower s :
  all_chars is_separator s = false ->
  all_chars is_separator (replaceCapitalPlusLower s) = false.
Proof.
  induction s as [|c r IH]; [discriminate|]. intros H. simpl in H.
  destruct (is_separator c) eqn:Hsep.
  - rewrite replaceCapitalPlusLower_cons by (apply separator_not_upper, Hsep).
    simpl. rewrite Hsep. apply IH, H.
  - destruct r as [|d r']; simpl; [rewrite Hsep; reflexivity|].
    destruct (is_upper c && is_lower d) eqn:Hpair.
    + apply andb_prop in Hpair as [Hup _].
      apply upper_not_separator in Hup as [_ Hlow].
      simpl. rewrite Hlow. reflexivity.
    + simpl. rewrite Hsep. reflexivity.
Qed.

Lemma word_replaceCapitals b s :
  all_chars is_separator s = false ->
  all_chars is_separator (replaceCapitals b s) = false.
Proof.
  revert b. induction s as [|c r IH]; intros b H; [discriminate|].
  simpl in H. simpl. destruct (is_upper c) eqn:Hup.
  - apply upper_not_separator in Hup as [_ Hlow].
    destruct b; simpl; rewrite Hlow; reflexivity.
  - simpl. destruct (is_separator c); [apply IH, H|reflexivity].
Qed.

Lemma word_trimStart s :
  all_chars is_separator s = false ->
  all_chars is_separator (trimStart s) = false.
Proof.
  induction s as [|c r IH]; [discriminate|]. intros H. simpl.
  destruct (is_space c) eqn:Hc; [|exact H].
  simpl in H. rewrite (space_is_separator _ Hc) in H. apply IH, H.
Qed.

Lemma word_trimEnd s :
  all_chars is_separator s = false ->
  all_chars is_separator (trimEnd s) = false.
Proof.
  induction s as [|c r IH]; [discriminate|]. intros H. simpl in H. simpl.
  destruct (is_separator c) eqn:Hsep.
  - specialize (IH H). destruct (trimEnd r) as [|d r'] eqn:Hr.
    + discriminate IH.
    + simpl. rewrite Hsep. exact IH.
  - destruct (trimEnd r) as [|d r'].
    + destruct (is_space c) eqn:Hc.
      * rewrite (space_is_separator _ Hc) in Hsep. discriminate.
      * simpl. rewrite Hsep. reflexivity.
    + simpl. rewrite Hsep. reflexivity.
Qed.

Lemma word_join_split b s :
  all_chars is_separator s = false ->
  all_chars is_separator (join "-" (split b s)) = false.
Proof.
  revert b. induction s as [|c r IH]; intros b H; [discriminate|].
  simpl in H. destruct (is_separator c) eqn:Hsep.
  - rewrite join_split_separator by assumption.
    destruct b; [apply IH, H|]. simpl. apply IH, H.
  - rewrite join_split_word by assumption. simpl. rewrite Hsep. reflexivity.
Qed.

Lemma word_dropLeadingHyphen s :
  all_chars is_separator s = false ->
  all_chars is_separator (dropLeadingHyphen s) = false.
Proof.
  destruct s as [|c r]; [discriminate|]. intros H. simpl.
  destruct (Ascii.eqb_spec c hyphen) as [->|_]; [|exact H].
  simpl in H. exact H.
Qed.

Lemma word_dropTrailingHyphen s :
  all_chars is_separator s = false -> dropTrailingHyphen s <> "".
Proof.
  destruct s as [|c r]; [discriminate|]. intros H. simpl.
  destruct (Ascii.eqb_spec c hyphen) as [->|_]; simpl; [|discriminate].
  destruct (all_space r) eqn:Hr; [|discriminate].
  simpl in H. rewrite (all_space_separators _ Hr) in H. discriminate.
Qed.

Lemma kebabCase_not_empty s : has_word s = true -> kebabCase s <> "".
Proof.
  unfold has_word. intros H. apply negb_true_iff in H.
  unfold kebabCase, trim.
  apply word_dropTrailingHyphen, word_dropLeadingHyphen, word_join_split,
    word_trimEnd, word_trimStart, word_replaceCapitals,
    word_replaceCapitalPlusLower, H.
Qed.

Lemma normalizedEventId_kebab (str : string) :
  has_word str = true -> is_kebab (normalizedEventId (Some str)) = true.
Proof.
  intros Hword.
  assert (str <> "") as Hne by (intros ->; discriminate Hword).
  rewrite normalizedEventId_truthy by exact Hne.
  destruct (kebabCase_shape str) as [Hempty|Hkebab].
  { exfalso. exact (kebabCase_not_empty str Hword Hempty). }
  destruct (startsWith (kebabCase str) "mcp-"); [exact Hkebab|].
  exact Hkebab.
Qed.

End Words.

(** C9, counterexample.  An id made of separators only is kebab-cased to
    the empty string, so the event is emitted with the bare prefix [mcp-],
    which is not in kebab case. *)
Lemma auditCreateEvent_bare_prefix :
  exists (ev : AuditEvent) (s' : Store nat),
    run (auditCreateEvent (Some "___") Demo.anonymous medium None) Demo.store0
      = (Returned 0%nat, s')
    /\ trace s' = [AuditorCreateEvent 0%nat ev]
    /\ eventId ev = "mcp-"
    /\ KebabCase.is_kebab (eventId ev) = false.
Proof. do 2 eexists. repeat split. Qed.

(** C9.  Whatever event id is handed to [auditCreateEvent], the id of the
    event it emits starts with [mcp-].  An absent or empty id gives
    [mcp-unknown-event].  For an id of ASCII characters with at least one
    character that is neither white space nor punctuation, the emitted id
    is in kebab case: it is the kebab-cased input, with [mcp-] put in
    front exactly when the kebab-cased input does not start with it.  An
    id of the form [mcp-<kebab-case>] is emitted unchanged. *)
Theorem auditCreateEvent_eventId {E} (id0 : option string) (req : Request)
    (level : McpAuditSeverityLevel) (m : option Meta) (s : Store E) :
  exists (ev : AuditEvent) (s' : Store E),
    run (auditCreateEvent id0 req level m) s = (Returned (nextHandle s), s')
    /\ trace s' = trace s ++ [AuditorCreateEvent (nextHandle s) ev]
    /\ startsWith (eventId ev) "mcp-" = true
    /\ (truthy id0 = false ->
        eventId ev = "mcp-unknown-event"
        /\ KebabCase.is_kebab (eventId ev) = true)
    /\ (forall str : string,
          id0 = Some str -> ascii_only str = true -> has_word str = true ->
          KebabCase.is_kebab (eventId ev) = true
          /\ eventId ev = if startsWith (KebabCase.kebabCase str) "mcp-"
                          then KebabCase.kebabCase str
                          else "mcp-" +:+ KebabCase.kebabCase str)
    /\ (forall w : string,
          KebabCase.is_kebab w = true -> ascii_only w = true ->
          id0 = Some ("mcp-" +:+ w) ->
          eventId ev = "mcp-" +:+ w).
Proof.
  destruct (normalizedEventId_shape id0) as (tail & Heq & _).
  do 2 eexists.
  split; [reflexivity|]. simpl.
  split; [reflexivity|]. simpl.
  split; [rewrite Heq; apply KebabFacts.startsWith_mcp_append|].
  split.
  { intros Hfalsy. rewrite (normalizedEventId_falsy _ Hfalsy).
    split; reflexivity. }
  split.
  - intros str -> _ Hword. split.
    + apply normalizedEventId_kebab, Hword.
    + apply normalizedEventId_truthy. intros ->. discriminate Hword.
  - intros w Hw _ ->. apply normalizedEventId_fixed, Hw.
Qed.

Lemma auditCreateEvent_eventId_witness :
  (exists (ev : AuditEvent) (s' : Store nat),
      run (auditCreateEvent (Some "mcp-auth-attempt") Demo.anonymous medium None)
        Demo.store0 = (Returned 0%nat, s')
      /\ trace s' = [AuditorCreateEvent 0%nat ev]
      /\ eventId ev = "mcp-auth-attempt")
  /\ (exists (ev : AuditEvent) (s' : Store nat),
      run (auditCreateEvent (Some "httpError") Demo.anonymous medium None)
        Demo.store0 = (Returned 0%nat, s')
      /\ KebabCase.is_kebab (eventId ev) = true
      /\ eventId ev = "mcp-http-error")
  /\ (exists (ev : AuditEvent) (s' : Store nat),
      run (auditCreateEvent None Demo.anonymous medium None)
        Demo.store0 = (Returned 0%nat, s')
      /\ eventId ev = "mcp-unknown-event").
Proof.
  split; [|split].
  - destruct (auditCreateEvent_eventId (Some "mcp-auth-attempt") Demo.anonymous
                medium None Demo.store0)
      as (ev & s' & Hrun & Htrace & _ & _ & _ & Hfixed).
    exists ev, s'. split; [exact Hrun|]. split; [exact Htrace|].
    exact (Hfixed "auth-attempt" eq_refl eq_refl eq_refl).
  - destruct (auditCreateEvent_eventId (Some "httpError") Demo.anonymous
                medium None Demo.store0)
      as (ev & s' & Hrun & _ & _ & _ & Hkebab & _).
    exists ev, s'. split; [exact Hrun|].
    exact (Hkebab "httpError" eq_refl eq_refl eq_refl).
  - destruct (auditCreateEvent_eventId None Demo.anonymous medium None
                Demo.store0)
      as (ev & s' & Hrun & _ & _ & Hfalsy & _ & _).
    exists ev, s'. split; [exact Hrun|]. exact (proj1 (Hfalsy eq_refl)).
Defined.

(** ** [McpService]: the list handler *)

(** C3.  When the backend listing returns [actions], the list handler
    returns a [tools] array with one descriptor per action, in the same
    order; the descriptor of an action has the action's name and input
    schema, annotations with the action's title, with [destructiveHint],
    [idempotentHint] and [readOnlyHint] equal to the action's three
    attributes and with [openWorldHint] false, and no [outputSchema]
    property. *)
Theorem listTools_descriptors {E} (svc : Services E)
    (credentials : BackstageCredentials) (s : Store E)
    (actions : list Action) (w : E) :
  actions_list svc credentials (world s) = (Returned actions, w) ->
  exists (tools : list Json) (s' : Store E),
    run (McpService.listTools svc credentials) s
      = (Returned (JObj [("tools", JArr tools)]), s')
    /\ length tools = length actions
    /\ forall (i : nat) (action : Action),
        actions !! i = Some action ->
        exists tool annotations : Json,
          tools !! i = Some tool
          /\ prop "name" tool = Some (JStr (name action))
          /\ prop "inputSchema" tool = Some (input (schema action))
          /\ prop "annotations" tool = Some annotations
          /\ prop "title" annotations = Some (JStr (title action))
          /\ prop "destructiveHint" annotations
               = Some (JBool (destructive (attributes action)))
          /\ prop "idempotentHint" annotations
               = Some (JBool (idempotent (attributes action)))
          /\ prop "readOnlyHint" annotations
               = Some (JBool (readOnly (attributes action)))
          /\ prop "openWorldHint" annotations = Some (JBool false)
          /\ prop "outputSchema" tool = None.
Proof.
  intros Hlist.
  exists (map McpService.toolOf actions).
  unfold McpService.listTools. unfold_m. rewrite Hlist. simpl.
  eexists. split; [reflexivity|]. split.
  - apply length_map.
  - intros i action Hi.
    exists (McpService.toolOf action). eexists.
    split.
    { rewrite list_lookup_fmap. rewrite Hi. reflexivity. }
    repeat split; reflexivity.
Qed.

Lemma listTools_descriptors_witness :
  exists (tools : list Json) (tool annotations : Json),
    fst (run (McpService.listTools Demo.services Demo.guest) Demo.store0)
      = Returned (JObj [("tools", JArr tools)])
    /\ length tools = 2%nat
    /\ tools !! 1%nat = Some tool
    /\ prop "name" tool = Some (JStr "drop-repo")
    /\ prop "annotations" tool = Some annotations
    /\ prop "destructiveHint" annotations = Some (JBool true)
    /\ prop "openWorldHint" annotations = Some (JBool false)
    /\ prop "outputSchema" tool = None.
Proof.
  destruct (listTools_descriptors Demo.services Demo.guest Demo.store0
              Demo.catalog 0%nat eq_refl)
    as (tools & s' & Hrun & Hlen & Hall).
  destruct (Hall 1%nat Demo.dropRepo eq_refl)
    as (tool & annotations & Htool & Hname & _ & Hann & _ & Hd & _ & _ & Ho
        & Hout).
  exists tools, tool, annotations.
  rewrite Hrun. repeat split; assumption.
Defined.

(** ** [McpService]: the invocation handler *)

(** C4.  When the listing returns a catalog in which the requested name is
    found and the backend invocation returns output [O], the function
    under [handleErrors], and with it the handler, returns a [content]
    array with exactly one element, of type [text], whose text is the
    three lines [```json], the two-space indented JSON serialization of
    [O] and [```], joined by newlines. *)
Theorem callTool_fenced_json {E} (svc : Services E)
    (credentials : BackstageCredentials) (params : CallToolParams)
    (s : Store E) (t0 : Z) (w0 w1 w2 : E)
    (actions : list Action) (action : Action) (O : Json) :
  Date_now svc (world s) = (t0, w0) ->
  actions_list svc credentials w0 = (Returned actions, w1) ->
  List.find (fun a => String.eqb (name a) (tool_name params)) actions
    = Some action ->
  actions_invoke svc (id action) (arguments params) credentials w1
    = (Returned O, w2) ->
  exists (content : list Json) (s' : Store E),
    run (McpService.callToolBody svc credentials params) s
      = (Returned (JObj [("content", JArr content)]), s')
    /\ run (McpService.callTool svc credentials params) s
      = (Returned (JObj [("content", JArr content)]), s')
    /\ content
       = [JObj [("type", JStr "text");
                ("text", JStr (join nl ["```json";
                                        JSON_stringify_indent O 2;
                                        "```"]))]]
    /\ length content = 1%nat.
Proof.
  intros Hnow Hlist Hfind Hinvoke.
  assert (exists s' : Store E,
             run (McpService.callToolBody svc credentials params) s
             = (Returned
                  (JObj [("content",
                          JArr [JObj [("type", JStr "text");
                                      ("text", JStr (McpService.fenced O))]])]),
                s')) as [s' Hbody].
  { unfold McpService.callToolBody. unfold_m.
    rewrite Hnow. simpl. rewrite Hlist. simpl. rewrite Hfind. simpl.
    rewrite Hinvoke. simpl.
    destruct (Date_now svc w2) as [t1 w3]. simpl.
    eexists. reflexivity. }
  eexists. exists s'.
  split; [exact Hbody|].
  split; [exact (run_handleErrors _ _ _ _ Hbody)|].
  split; reflexivity.
Qed.

Lemma callTool_fenced_json_witness :
  exists (text : string),
    fst (run (McpService.callTool Demo.services Demo.guest Demo.callCreateRepo)
           Demo.store0)
      = Returned (JObj [("content",
                         JArr [JObj [("type", JStr "text"); ("text", JStr text)]])])
    /\ text = join nl ["```json";
                       "{" +:+ nl +:+ "  " +:+ quote "url" +:+ ": "
                         +:+ quote "https://example.com/x" +:+ nl +:+ "}";
                       "```"].
Proof.
  destruct (callTool_fenced_json Demo.services Demo.guest Demo.callCreateRepo
              Demo.store0 1000 1%nat 1%nat 1%nat Demo.catalog Demo.createRepo
              Demo.createRepoOutput eq_refl eq_refl eq_refl eq_refl)
    as (content & s' & _ & Hrun & Hcontent & _).
  eexists. rewrite Hrun, Hcontent. split; reflexivity.
Defined.

(** C1.  Every invocation creates the execution-request event and then
    lists the catalog under the session's credential.  When that listing
    has no entry whose name equals the requested tool name, the handler
    emits an [mcp-tool-not-found] event, the function under [handleErrors]
    throws a [NotFoundError] whose message contains the requested name,
    the handler fails with the not-found class and the same message, and
    the backend is never asked to invoke anything. *)
Theorem callTool_not_found {E} (svc : Services E)
    (credentials : BackstageCredentials) (params : CallToolParams)
    (s : Store E) (t0 : Z) (w0 w1 : E) (listing : Outcome (list Action)) :
  Date_now svc (world s) = (t0, w0) ->
  actions_list svc credentials w0 = (listing, w1) ->
  exists (out : Outcome Json) (s' : Store E) (started : AuditEvent)
         (rest : list Effect),
    run (McpService.callTool svc credentials params) s = (out, s')
    /\ trace s' = trace s ++ AuditorCreateEvent (nextHandle s) started
                          :: ActionsList credentials listing :: rest
    /\ forall actions : list Action,
        listing = Returned actions ->
        List.find (fun a => String.eqb (name a) (tool_name params)) actions
          = None ->
        let message := McpService.notFoundMessage (tool_name params) in
        run (McpService.callToolBody svc credentials params) s
          = (Threw (NotFoundError message), s')
        /\ out = Threw (McpError NotFoundCode message)
        /\ contains message (tool_name params)
        /\ (exists (notFound : AuditEvent) (failure : Effect),
              rest = [AuditorCreateEvent (S (nextHandle s)) notFound; failure]
              /\ eventId notFound = "mcp-tool-not-found")
        /\ forallb (fun eff => negb (isInvoke eff)) rest = true.
Proof.
  intros Hnow Hlist.
  unfold McpService.callTool, McpService.callToolBody. unfold_m.
  rewrite Hnow. simpl. rewrite Hlist. simpl.
  destruct listing as [actions|e]; simpl.
  - destruct (List.find _ actions) as [action|] eqn:Hfind; simpl.
    + destruct (actions_invoke svc _ _ _ w1) as [[O|e] w2]; simpl;
        destruct (Date_now svc w2) as [t1 w3]; simpl;
        do 4 eexists; (split; [reflexivity|]); simpl;
        (split; [trace_eq|]);
        intros actions' Heq; injection Heq as <-; intros Hnone; congruence.
    + destruct (Date_now svc w1) as [t1 w3]; simpl.
      do 4 eexists. split; [reflexivity|]. simpl.
      split; [trace_eq|].
      intros actions' Heq; injection Heq as <-; intros _.
      split; [reflexivity|]. split; [reflexivity|].
      split.
      { exists ("Action " +:+ String dquote ""), (String dquote " not found").
        unfold McpService.notFoundMessage. simpl. reflexivity. }
      split; [|reflexivity].
      do 2 eexists. split; reflexivity.
  - destruct (Date_now svc w1) as [t1 w3]; simpl.
    do 4 eexists. split; [reflexivity|]. simpl.
    split; [trace_eq|].
    intros actions' Heq; discriminate.
Qed.

Lemma callTool_not_found_witness :
  exists (s' : Store nat),
    run (McpService.callTool Demo.services Demo.guest Demo.callMissing)
      Demo.store0
      = (Threw (McpError NotFoundCode
                  (McpService.notFoundMessage "does-not-exist")), s')
    /\ contains (McpService.notFoundMessage "does-not-exist") "does-not-exist"
    /\ forallb (fun eff => negb (isInvoke eff)) (trace s') = true.
Proof.
  destruct (callTool_not_found Demo.services Demo.guest Demo.callMissing
              Demo.store0 1000 1%nat 1%nat (Returned Demo.catalog)
              eq_refl eq_refl)
    as (out & s' & started & rest & Hrun & Htrace & Hcase).
  destruct (Hcase Demo.catalog eq_refl eq_refl)
    as (_ & Hout & Hcontains & _ & Hnever).
  exists s'. rewrite Hrun, Hout. split; [reflexivity|].
  split; [exact Hcontains|].
  rewrite Htrace. simpl. exact Hnever.
Defined.

(** C2.  In every run of the invocation handler the execution-request
    event is created first and, among the effects that follow, its handle
    is completed exactly once.  If the listing throws, if the listing has
    no entry of the requested name, or if the backend invocation throws,
    the function under [handleErrors] throws that error and the one
    completion, its last effect, is [fail] with that error; if the
    invocation returns, the function returns and the one completion, its
    last effect, is [success].  The handler itself returns or throws
    accordingly and adds no effect. *)
Theorem callTool_completes_once {E} (svc : Services E)
    (credentials : BackstageCredentials) (params : CallToolParams)
    (s : Store E) (t0 : Z) (w0 w1 : E) (listing : Outcome (list Action)) :
  Date_now svc (world s) = (t0, w0) ->
  actions_list svc credentials w0 = (listing, w1) ->
  exists (out handled : Outcome Json) (s' : Store E) (started : AuditEvent)
         (rest : list Effect),
    run (McpService.callToolBody svc credentials params) s = (out, s')
    /\ run (McpService.callTool svc credentials params) s = (handled, s')
    /\ returned handled = returned out
    /\ trace s' = trace s ++ AuditorCreateEvent (nextHandle s) started :: rest
    /\ eventId started = "mcp-tool-execution-request"
    /\ completions (nextHandle s) rest = [returned out]
    /\ (forall error : Thrown,
          listing = Threw error ->
          out = Threw error
          /\ exists m, last rest = Some (AuditorFail (nextHandle s) error m))
    /\ (forall actions : list Action,
          listing = Returned actions ->
          List.find (fun a => String.eqb (name a) (tool_name params)) actions
            = None ->
          let error :=
            NotFoundError (McpService.notFoundMessage (tool_name params)) in
          out = Threw error
          /\ exists m, last rest = Some (AuditorFail (nextHandle s) error m))
    /\ (forall (actions : list Action) (action : Action)
               (answer : Outcome Json) (w2 : E),
          listing = Returned actions ->
          List.find (fun a => String.eqb (name a) (tool_name params)) actions
            = Some action ->
          actions_invoke svc (id action) (arguments params) credentials w1
            = (answer, w2) ->
          match answer with
          | Returned _ =>
              returned out = true
              /\ exists m,
                   last rest = Some (AuditorSuccess (nextHandle s) m)
          | Threw error =>
              out = Threw error
              /\ exists m,
                   last rest = Some (AuditorFail (nextHandle s) error m)
          end).
Proof.
  intros Hnow Hlist.
  unfold McpService.callTool, McpService.callToolBody. unfold_m.
  rewrite Hnow. simpl. rewrite Hlist. simpl.
  destruct listing as [actions|e]; simpl.
  - destruct (List.find _ actions) as [action|] eqn:Hfind; simpl.
    + destruct (actions_invoke svc (id action) (arguments params)
                  credentials w1) as [[produced|e] w2] eqn:Hinvoke; simpl;
        destruct (Date_now svc w2) as [t1 w3]; simpl;
        do 5 eexists; (split; [reflexivity|]); (split; [reflexivity|]);
        simpl; (split; [reflexivity|]); (split; [trace_eq|]);
        (split; [reflexivity|]);
        (split; [unfold completions; simpl; rewrite Nat.eqb_refl;
                 reflexivity|]);
        (split; [intros error Heq; discriminate Heq|]);
        (split; [intros actions' Heq Hnone; injection Heq as <-;
                 congruence|]);
        intros actions' action' answer w2' Heq Hfind' Hinvoke';
        injection Heq as <-;
        rewrite Hfind in Hfind'; injection Hfind' as <-;
        rewrite Hinvoke in Hinvoke'; injection Hinvoke' as <- <-;
        (split; [reflexivity|]); eexists; reflexivity.
    + destruct (Date_now svc w1) as [t1 w3]; simpl.
      do 5 eexists. split; [reflexivity|]. split; [reflexivity|].
      simpl. split; [reflexivity|]. split; [trace_eq|].
      split; [reflexivity|].
      split; [unfold completions; simpl; rewrite Nat.eqb_refl; reflexivity|].
      split; [intros error Heq; discriminate Heq|].
      split.
      * intros actions' Heq _. split; [reflexivity|]. eexists. reflexivity.
      * intros actions' action' answer w2' Heq Hfind' _.
        injection Heq as <-. congruence.
  - destruct (Date_now svc w1) as [t1 w3]; simpl.
    do 5 eexists. split; [reflexivity|]. split; [reflexivity|].
    simpl. split; [reflexivity|]. split; [trace_eq|].
    split; [reflexivity|].
    split; [unfold completions; simpl; rewrite Nat.eqb_refl; reflexivity|].
    split.
    + intros error Heq. injection Heq as <-.
      split; [reflexivity|]. eexists. reflexivity.
    + split; [intros actions' Heq; discriminate Heq|].
      intros actions' action' answer w2' Heq. discriminate Heq.
Qed.

Lemma callTool_completes_once_witness :
  exists (s' : Store nat) (m : option Meta),
    run (McpService.callToolBody Demo.services Demo.guest
           {| tool_name := "drop-repo"; arguments := None |}) Demo.store0
      = (Threw (JsError "Error" "backend unavailable"), s')
    /\ completions 0%nat (trace s') = [false]
    /\ last (trace s')
       = Some (AuditorFail 0%nat (JsError "Error" "backend unavailable") m).
Proof.
  destruct (callTool_completes_once Demo.services Demo.guest
              {| tool_name := "drop-repo"; arguments := None |} Demo.store0
              1000 1%nat 1%nat (Returned Demo.catalog) eq_refl eq_refl)
    as (out & handled & s' & started & rest & Hrun & _ & _ & Htrace & _
        & Honce & _ & _ & Hinvoke).
  destruct (Hinvoke Demo.catalog Demo.dropRepo
              (Threw (JsError "Error" "backend unavailable")) 1%nat
              eq_refl eq_refl eq_refl) as (Hout & m & Hlast).
  exists s', m. rewrite Hrun, Hout. split; [reflexivity|].
  rewrite Htrace. simpl. split.
  - rewrite Hout in Honce. exact Honce.
  - destruct rest as [|eff rest']; [discriminate Hlast|].
    change (last (AuditorCreateEvent 0%nat started :: eff :: rest'))
      with (last (eff :: rest')).
    exact Hlast.
Defined.

(** ** The stateless router *)

(** C5.  A failure thrown anywhere in the [try] block of [POST /] is handled
    by the [catch] block, which for every error logs it if it is an
    [Error], emits an [mcp-http-error] event of severity [high] carrying
    the error's type and message, [statusCode] 500 and [jsonrpcCode]
    -32603, then, exactly when no headers have been sent, answers with
    status 500 and the fixed internal-error envelope, and finally marks
    the event failed; the envelope does not depend on the error. *)
Theorem post_failure_internal_error {E} (svc : Services E) (req : Request) :
  (forall (s : Store E) (t0 : Z) (w0 : E) (error : Thrown) (s1 : Store E),
      Date_now svc (world s) = (t0, w0) ->
      run (createStreamableRouter.postTry svc req t0) (postInit s w0)
        = (Threw error, s1) ->
      run (createStreamableRouter.post svc req) s
        = run (createStreamableRouter.postCatch req error) s1)
  /\ forall (error : Thrown) (s1 : Store E),
      exists (errorEvent : AuditEvent) (m : Meta) (s2 : Store E),
        run (createStreamableRouter.postCatch req error) s1 = (Returned tt, s2)
        /\ trace s2
           = trace s1
             ++ (if isError error then [LoggerError (error_message error)]
                 else [])
             ++ [AuditorCreateEvent (nextHandle s1) errorEvent]
             ++ (if headersSent (res s1) then []
                 else [ResStatus 500;
                       ResJson
                         (JObj [("jsonrpc", JStr "2.0");
                                ("error",
                                 JObj [("code", JNum (-32603));
                                       ("message", JStr "Internal server error")]);
                                ("id", JNull)])])
             ++ [AuditorFail (nextHandle s1) error None]
        /\ eventId errorEvent = "mcp-http-error"
        /\ severityLevel errorEvent = high
        /\ meta errorEvent = Some m
        /\ assoc "errorType" m = Some (Some (JStr (errorType error)))
        /\ assoc "errorMessage" m = Some (Some (JStr (errorMessage error)))
        /\ assoc "statusCode" m = Some (Some (JNum 500))
        /\ assoc "jsonrpcCode" m = Some (Some (JNum (-32603)))
        /\ res s2 = (if headersSent (res s1) then res s1
                     else respondInternalError (res s1)).
Proof.
  split.
  - intros s t0 w0 error s1 Hnow Htry.
    unfold createStreamableRouter.post.
    unfold run at 1, mbind, M_bind, now, set_credentials, set_clientId.
    rewrite Hnow. simpl.
    exact (run_try_threw _ _ _ _ _ Htry).
  - intros error s1. unfold createStreamableRouter.postCatch. unfold_m.
    destruct (isError error) eqn:Herr; simpl;
      destruct (headersSent (res s1)) eqn:Hsent; simpl;
      do 3 eexists; (split; [reflexivity|]); simpl;
      (split; [trace_eq|]);
      unfold errorType, errorMessage; rewrite Herr;
      repeat split; try reflexivity.
    all: destruct (res s1); simpl in *; subst; reflexivity.
Qed.

Lemma post_failure_internal_error_witness :
  exists (s' : Store nat),
    run (createStreamableRouter.post Demo.services Demo.anonymous) Demo.store0
      = (Returned tt, s')
    /\ res s' = respondInternalError freshResponse.
Proof.
  destruct (post_failure_internal_error Demo.services Demo.anonymous)
    as [Hcaught Hcatch].
  pose (error := JsError "AuthenticationError" "Missing credentials").
  pose (s1 := snd (run (createStreamableRouter.postTry Demo.services
                          Demo.anonymous 1000)
                       (postInit Demo.store0 1%nat))).
  pose proof (Hcaught Demo.store0 1000 1%nat error s1 eq_refl eq_refl) as Hpost.
  destruct (Hcatch error s1)
    as (ev & m & s2 & Hrun & _ & _ & _ & _ & _ & _ & _ & _ & Hres).
  exists s2. rewrite Hpost, Hrun. split; [reflexivity|exact Hres].
Defined.

(** C7, counterexample.  The body [GET /] writes carries the message
    [Method not allowed.], with a full stop, which is not the message the
    specification quotes. *)
Lemma method_not_allowed_spec_message_fails :
  written (res (snd (run (createStreamableRouter.get Demo.anonymous)
                       Demo.store0)))
    = [methodNotAllowedPayload]
  /\ methodNotAllowedPayload <> specMethodNotAllowedPayload.
Proof. split; [reflexivity|]. vm_compute. discriminate. Qed.

(** C7.  Every [GET /] and every [DELETE /], whatever the request and the
    store, emits one [mcp-method-not-allowed] event of low severity, writes
    status 405 and ends the response with the same fixed JSON-RPC error
    body of code -32000 and message [Method not allowed.]; the
    collaborators (authentication included), the locals, the session
    registry and the listeners are left as they were. *)
Theorem method_not_allowed_fixed_response {E} (req : Request) (s : Store E) :
  methodNotAllowedRun createStreamableRouter.get req s
  /\ methodNotAllowedRun createStreamableRouter.delete req s.
Proof.
  split; unfold methodNotAllowedRun, createStreamableRouter.get,
    createStreamableRouter.delete; unfold_m; simpl;
    do 2 eexists; (split; [reflexivity|]); simpl;
    (split; [trace_eq|]);
    repeat split; reflexivity.
Qed.

(** ** Authentication on both transports *)

(** C8, counterexample.  On the stateless transport a request whose
    credential resolution fails leaves the auth-attempt handle not marked
    failed, and the handler returns normally after answering with status
    500. *)
Lemma auth_failure_stateless_not_as_specified :
  exists (attempt : AuditEvent) (error : Thrown) (rest : list Effect)
         (s' : Store nat),
    run (createStreamableRouter.post Demo.services Demo.anonymous) Demo.store0
      = (Returned tt, s')
    /\ trace s' = AuditorCreateEvent 0%nat attempt
                  :: HttpAuthCredentials Demo.anonymous (Threw error) :: rest
    /\ eventId attempt = "mcp-auth-attempt"
    /\ markedFailed 0%nat (trace s') = false
    /\ existsb writesResponse (trace s') = true
    /\ statusCode (res s') = 500.
Proof. do 4 eexists. vm_compute. repeat split. Qed.

(** C8.  On both transports the [mcp-auth-attempt] event is created first
    and credential resolution follows it.  When resolution succeeds, the
    very next effect marks the handle successful with the principal.  When
    it fails, the stateless handler catches the failure, emits
    [mcp-http-error], returns normally and, if no headers were sent,
    answers with the internal-error response; the legacy handler emits
    [mcp-connection-error], writes nothing to the response and rethrows the
    failure. *)
Theorem auth_attempt_audited {E} (svc : Services E) (req : Request)
    (s : Store E) (t0 : Z) (w0 w1 : E) (answer : Outcome BackstageCredentials) :
  Date_now svc (world s) = (t0, w0) ->
  httpAuth_credentials svc req w0 = (answer, w1) ->
  (exists (out : Outcome unit) (s' : Store E) (attempt : AuditEvent)
          (rest : list Effect),
      run (createStreamableRouter.post svc req) s = (out, s')
      /\ trace s' = trace s ++ AuditorCreateEvent (nextHandle s) attempt
                            :: HttpAuthCredentials req answer :: rest
      /\ eventId attempt = "mcp-auth-attempt"
      /\ match answer with
         | Returned creds =>
             exists rest',
               rest = AuditorSuccess (nextHandle s)
                        (Some [("principal", principalOf creds)]) :: rest'
         | Threw error =>
             out = Returned tt
             /\ (exists ev, In (AuditorCreateEvent (S (nextHandle s)) ev) rest
                            /\ eventId ev = "mcp-http-error")
             /\ (headersSent (res s) = false ->
                 res s' = respondInternalError (res s))
         end)
  /\ (exists (out : Outcome unit) (s' : Store E) (attempt : AuditEvent)
             (rest : list Effect),
      run (createSseRouter.get svc req) s = (out, s')
      /\ trace s' = trace s ++ AuditorCreateEvent (nextHandle s) attempt
                            :: HttpAuthCredentials req answer :: rest
      /\ eventId attempt = "mcp-auth-attempt"
      /\ match answer with
         | Returned creds =>
             exists rest',
               rest = AuditorSuccess (nextHandle s)
                        (Some [("principal", principalOf creds)]) :: rest'
         | Threw error =>
             out = Threw error
             /\ (exists ev, In (AuditorCreateEvent (S (nextHandle s)) ev) rest
                            /\ eventId ev = "mcp-connection-error")
             /\ existsb writesResponse rest = false
             /\ res s' = res s
         end).
Proof.
  intros Hnow Hauth. split.
  - unfold createStreamableRouter.post, createStreamableRouter.postTry,
      createStreamableRouter.postCatch.
    unfold_m.
    rewrite Hnow. simpl. rewrite Hauth. simpl.
    destruct answer as [creds|error]; simpl.
    + destruct (randomUUID svc w1) as [cid w2]; simpl.
      destruct (server_connect svc (res s) w2) as [[[[]|e1] r3] w3]; simpl.
      * destruct (transport_handleRequest svc req r3 w3)
          as [[[[]|e2] r4] w4]; simpl.
        -- do 4 eexists. split; [reflexivity|]. simpl.
           split; [trace_eq|].
           split; [reflexivity|]. eexists; reflexivity.
        -- destruct (isError e2); simpl; destruct (headersSent r4); simpl;
             do 4 eexists; (split; [reflexivity|]); simpl;
             (split; [trace_eq|]);
             (split; [reflexivity|]); eexists; reflexivity.
      * destruct (isError e1); simpl; destruct (headersSent r3); simpl;
          do 4 eexists; (split; [reflexivity|]); simpl;
          (split; [trace_eq|]);
          (split; [reflexivity|]); eexists; reflexivity.
    + destruct (isError error); simpl;
        destruct (headersSent (res s)) eqn:Hsent; simpl;
        do 4 eexists; (split; [reflexivity|]); simpl;
        (split; [trace_eq|]);
        (split; [reflexivity|]); (split; [reflexivity|]);
        (split; [eexists; split; [simpl; eauto 6|reflexivity]|]);
        intros Hfresh; try discriminate; reflexivity.
  - unfold createSseRouter.get, createSseRouter.getTry, createSseRouter.getCatch,
      createSseRouter.map_set.
    unfold_m. rewrite Hnow. simpl. rewrite Hauth. simpl.
    destruct answer as [creds|error]; simpl.
    + destruct (randomUUID svc w1) as [sid w2]; simpl.
      destruct (server_connect svc (res s) w2) as [[[[]|e1] r3] w3]; simpl;
        do 4 eexists; (split; [reflexivity|]); simpl;
        (split; [trace_eq|]);
        (split; [reflexivity|]); eexists; reflexivity.
    + do 4 eexists. split; [reflexivity|]. simpl.
      split; [trace_eq|].
      split; [reflexivity|]. split; [reflexivity|].
      split; [eexists; split; [simpl; eauto|reflexivity]|].
      split; reflexivity.
Qed.

Lemma auth_attempt_audited_witness :
  (exists (s' : Store nat),
      run (createStreamableRouter.post Demo.services Demo.anonymous) Demo.store0
        = (Returned tt, s')
      /\ res s' = respondInternalError freshResponse)
  /\ (exists (error : Thrown) (s' : Store nat),
      run (createSseRouter.get Demo.services Demo.anonymous) Demo.store0
        = (Threw error, s')
      /\ res s' = freshResponse).
Proof.
  destruct (auth_attempt_audited Demo.services Demo.anonymous Demo.store0
              1000 1%nat 1%nat
              (Threw (JsError "AuthenticationError" "Missing credentials"))
              eq_refl eq_refl)
    as [(out & s' & attempt & rest & Hrun & _ & _ & Hout & _ & Hres)
        (out2 & s2 & attempt2 & rest2 & Hrun2 & _ & _ & Hout2 & _ & _ & Hres2)].
  split.
  - exists s'. rewrite Hrun, Hout. split; [reflexivity|exact (Hres eq_refl)].
  - eexists. exists s2. rewrite Hrun2, Hout2. split; [reflexivity|exact Hres2].
Defined.

(** ** The legacy side channel *)

(** Once the close listener of a stream has run, its session id no longer
    resolves, so a later message for it takes the unknown-id branch. *)
Lemma onClose_unregisters {E} (svc : Services E) (req : Request)
    (connectionStart : Z) (transport : SSEServerTransport)
    (creds : option BackstageCredentials) (s : Store E) :
  exists s' : Store E,
    run (createSseRouter.onClose svc req connectionStart transport creds) s
      = (Returned tt, s')
    /\ transportsToSessionId s' !! sessionId transport = None.
Proof.
  unfold createSseRouter.onClose, createSseRouter.map_delete. unfold_m.
  destruct (Date_now svc (world s)) as [finish w]. simpl.
  eexists. split; [reflexivity|]. simpl. apply lookup_delete_eq.
Qed.

(** C6, counterexample.  A call whose [sessionId] parameter is present but
    empty, with no such key in the registry, is answered with
    [sessionId is required], not with the message naming the id. *)
Lemma postMessages_empty_sessionId_is_required :
  query_sessionId emptySessionId = Some ""
  /\ transportsToSessionId Demo.store0 !! "" = None
  /\ written (res (snd (run (createSseRouter.postMessages Demo.services
                               emptySessionId) Demo.store0)))
     = ["sessionId is required"]
  /\ written (res (snd (run (createSseRouter.postMessages Demo.services
                               emptySessionId) Demo.store0)))
     <> [createSseRouter.noTransportMessage ""].
Proof.
  split; [reflexivity|]. split; [reflexivity|]. split; [reflexivity|].
  vm_compute. discriminate.
Qed.

(** C6.  For every [POST /messages] call: when the [sessionId] parameter is
    absent or empty, the handler emits [mcp-invalid-session] and then
    answers 400, [text/plain], [sessionId is required], without looking
    into the registry; when it is a non-empty id the registry does not
    hold, the handler looks it up, emits [mcp-invalid-session] carrying
    the id and answers 400, [text/plain], with the message that names the
    id; a message is forwarded to a transport only for a non-empty id
    found in the registry, and for such an id it is forwarded to the
    transport registered under it. *)
Theorem postMessages_session_errors {E} (svc : Services E) (req : Request)
    (s : Store E) :
  (truthy (query_sessionId req) = false ->
   exists (ev : AuditEvent) (s' : Store E),
     run (createSseRouter.postMessages svc req) s = (Returned tt, s')
     /\ trace s' = trace s ++ [AuditorCreateEvent (nextHandle s) ev;
                               ResStatus 400; ResContentType "text/plain";
                               ResWrite "sessionId is required"]
     /\ eventId ev = "mcp-invalid-session"
     /\ res s' = respondBadRequest (res s) "sessionId is required")
  /\ (forall sid : string,
        query_sessionId req = Some sid -> sid <> "" ->
        transportsToSessionId s !! sid = None ->
        exists (ev : AuditEvent) (m : Meta) (s' : Store E),
          run (createSseRouter.postMessages svc req) s = (Returned tt, s')
          /\ trace s' = trace s ++ [MapGet sid;
                                    AuditorCreateEvent (nextHandle s) ev;
                                    ResStatus 400; ResContentType "text/plain";
                                    ResWrite
                                      (createSseRouter.noTransportMessage sid)]
          /\ eventId ev = "mcp-invalid-session"
          /\ meta ev = Some m
          /\ assoc "sessionId" m = Some (Some (JStr sid))
          /\ res s' = respondBadRequest (res s)
                        (createSseRouter.noTransportMessage sid))
  /\ (exists (out : Outcome unit) (s' : Store E) (effects : list Effect),
        run (createSseRouter.postMessages svc req) s = (out, s')
        /\ trace s' = trace s ++ effects
        /\ (existsb isPostMessage effects = true ->
            exists (sid : string) (t : SSEServerTransport),
              query_sessionId req = Some sid /\ sid <> ""
              /\ transportsToSessionId s !! sid = Some t
              /\ In (MapGet sid) effects))
  /\ (forall (sid : string) (t : SSEServerTransport),
        query_sessionId req = Some sid -> sid <> "" ->
        transportsToSessionId s !! sid = Some t ->
        exists (answer : Outcome unit) (s' : Store E),
          run (createSseRouter.postMessages svc req) s = (answer, s')
          /\ trace s' = trace s ++ [MapGet sid;
                                    TransportHandlePostMessage sid req answer]).
Proof.
  unfold createSseRouter.postMessages, createSseRouter.map_get.
  split; [|split; [|split]].
  - intros Hfalsy. rewrite Hfalsy. unfold_m. simpl.
    do 2 eexists. split; [reflexivity|]. simpl.
    split; [trace_eq|].
    split; reflexivity.
  - intros sid Hq Hne Hnone. rewrite Hq.
    destruct sid as [|c sid']; [congruence|]. unfold_m. simpl.
    rewrite Hnone. simpl.
    do 3 eexists. split; [reflexivity|]. simpl.
    split; [trace_eq|].
    repeat split; reflexivity.
  - destruct (truthy (query_sessionId req)) eqn:Htruthy; unfold_m; simpl.
    + destruct (query_sessionId req) as [[|c sid']|] eqn:Hq; try discriminate.
      simpl.
      destruct (transportsToSessionId s !! String c sid') as [t|] eqn:Hget;
        simpl.
      * destruct (transport_handlePostMessage svc t req (res s) (world s))
          as [[out r'] w'] eqn:Hcall; simpl.
        do 3 eexists. split; [reflexivity|]. simpl.
        split; [trace_eq|].
        intros _. exists (String c sid'), t.
        repeat split; [discriminate| assumption | simpl; auto].
      * do 3 eexists. split; [reflexivity|]. simpl.
        split; [trace_eq|].
        simpl. discriminate.
    + do 3 eexists. split; [reflexivity|]. simpl.
      split; [trace_eq|].
      simpl. discriminate.
  - intros sid t Hq Hne Hget. rewrite Hq.
    destruct sid as [|c sid']; [congruence|]. unfold_m. simpl.
    rewrite Hget. simpl.
    destruct (transport_handlePostMessage svc t req (res s) (world s))
      as [[answer r'] w']. simpl.
    do 2 eexists. split; [reflexivity|]. simpl. trace_eq.
Qed.

Lemma postMessages_session_errors_witness :
  (exists (s' : Store nat),
      run (createSseRouter.postMessages Demo.services Demo.anonymous) Demo.store0
        = (Returned tt, s')
      /\ res s' = respondBadRequest freshResponse "sessionId is required")
  /\ (exists (s' : Store nat),
      run (createSseRouter.postMessages Demo.services unknownSession) Demo.store0
        = (Returned tt, s')
      /\ res s' = respondBadRequest freshResponse
                    (createSseRouter.noTransportMessage "abc"))
  /\ (exists (t : SSEServerTransport),
      transportsToSessionId storeWithSession !! "s-1" = Some t).
Proof.
  split; [|split].
  - destruct (postMessages_session_errors Demo.services Demo.anonymous
                Demo.store0) as [Hmissing _].
    destruct (Hmissing eq_refl) as (ev & s' & Hrun & _ & _ & Hres).
    exists s'. split; assumption.
  - destruct (postMessages_session_errors Demo.services unknownSession
                Demo.store0) as (_ & Hunknown & _).
    assert ("abc" <> "") as Hne by discriminate.
    destruct (Hunknown "abc" eq_refl Hne eq_refl)
      as (ev & m & s' & Hrun & _ & _ & _ & _ & Hres).
    exists s'. split; assumption.
  - destruct (postMessages_session_errors Demo.services knownSession
                storeWithSession)
      as (_ & _ & (out & s' & effects & Hrun & Htrace & Honly) & _).
    assert (existsb isPostMessage effects = true) as Hforwarded.
    { unfold run in Hrun. vm_compute in Hrun. injection Hrun as _ <-.
      simpl in Htrace. subst effects. reflexivity. }
    destruct (Honly Hforwarded) as (sid & t & Hq & _ & Hget & _).
    injection Hq as <-. exists t. exact Hget.
Defined.

(** C10.  A [POST /messages] call whose [sessionId] is absent or empty, or
    is an id the registry does not hold, returns with the registry exactly
    as it was and without any transport's message handler having been
    called. *)
Theorem postMessages_frame {E} (svc : Services E) (req : Request)
    (s : Store E) :
  (truthy (query_sessionId req) = false
   \/ exists sid : string,
        query_sessionId req = Some sid
        /\ transportsToSessionId s !! sid = None) ->
  exists (s' : Store E) (effects : list Effect),
    run (createSseRouter.postMessages svc req) s = (Returned tt, s')
    /\ transportsToSessionId s' = transportsToSessionId s
    /\ trace s' = trace s ++ effects
    /\ existsb isPostMessage effects = false.
Proof.
  intros Hcase. unfold createSseRouter.postMessages, createSseRouter.map_get.
  destruct (truthy (query_sessionId req)) eqn:Htruthy; unfold_m; simpl.
  - destruct Hcase as [Hfalsy|(sid & Hq & Hnone)].
    { congruence. }
    rewrite Hq. simpl. rewrite Hnone. simpl.
    do 2 eexists. split; [reflexivity|]. simpl.
    split; [reflexivity|].
    split; [trace_eq|]. reflexivity.
  - do 2 eexists. split; [reflexivity|]. simpl.
    split; [reflexivity|].
    split; [trace_eq|]. reflexivity.
Qed.

Lemma postMessages_frame_witness :
  exists (s' : Store nat) (effects : list Effect),
    run (createSseRouter.postMessages Demo.services unknownSession)
      storeWithSession
      = (Returned tt, s')
    /\ transportsToSessionId s' = transportsToSessionId storeWithSession
    /\ trace s' = effects
    /\ existsb isPostMessage effects = false.
Proof.
  assert (transportsToSessionId storeWithSession !! "abc" = None) as Hnone
    by reflexivity.
  destruct (postMessages_frame Demo.services unknownSession storeWithSession
              (or_intror (ex_intro _ "abc" (conj eq_refl Hnone))))
    as (s' & effects & Hrun & Hreg & Htrace & Hnever).
  exists s', effects. repeat split; assumption.
Defined.

(** * Further properties *)

(** ** Relations every step keeps *)

Section Through.
Context {E : Type} (R : Store E -> Store E -> Prop) `{!PreOrder R}.

Lemma through_ret {A} (a : A) : through R (mret a : M E A).
Proof. intros s. simpl. reflexivity. Qed.

Lemma through_throw {A} (e : Thrown) : through R (throw e : M E A).
Proof. intros s. simpl. reflexivity. Qed.

Lemma through_bind {A B} (m : M E A) (f : A -> M E B) :
  through R m -> (forall a, through R (f a)) -> through R (m ≫= f).
Proof.
  intros Hm Hf s. specialize (Hm s).
  unfold run, mbind, M_bind in *. destruct (m s) as [[a|e] s1]; simpl in *.
  - etransitivity; [exact Hm|]. apply (Hf a s1).
  - exact Hm.
Qed.

Lemma through_try_catch {A} (body : M E A) (handler : Thrown -> M E A) :
  through R body -> (forall e, through R (handler e)) ->
  through R (try_catch body handler).
Proof.
  intros Hm Hf s. specialize (Hm s).
  unfold run, try_catch in *. destruct (body s) as [[a|e] s1]; simpl in *.
  - exact Hm.
  - etransitivity; [exact Hm|]. apply (Hf e s1).
Qed.

Lemma through_handleErrors {A} (fn : M E A) :
  through R fn -> through R (handleErrors fn).
Proof.
  intros Hfn. apply through_try_catch; [exact Hfn|].
  intros e. apply through_throw.
Qed.

Lemma through_get_store : through R (get_store : M E (Store E)).
Proof. intros s. simpl. reflexivity. Qed.

End Through.

(** ** Effects added by a run *)

Section Emitting.
Context {E : Type} (P : Effect -> bool).

#[global] Instance emitting_preorder : PreOrder (@emitting E P).
Proof.
  split.
  - intros s. exists []. split; [symmetry; apply app_nil_r|reflexivity].
  - intros s1 s2 s3 (d1 & H1 & P1) (d2 & H2 & P2).
    exists (d1 ++ d2). split.
    + rewrite H2, H1. symmetry. apply app_assoc.
    + rewrite forallb_app, P1, P2. reflexivity.
Qed.

Lemma emitting_silent {A} (m : M E A) :
  (forall s, trace (snd (run m s)) = trace s) -> through (emitting P) m.
Proof.
  intros Hm s. exists []. rewrite Hm, app_nil_r. split; reflexivity.
Qed.

Lemma emitting_emit (eff : Effect) :
  P eff = true -> through (emitting P) (emit eff : M E unit).
Proof.
  intros HP s. exists [eff]. simpl. rewrite HP. split; reflexivity.
Qed.

Lemma emitting_call {A} (op : E -> Outcome A * E) (record : Outcome A -> Effect) :
  (forall answer, P (record answer) = true) ->
  through (emitting P) (call op record).
Proof.
  intros HP s. unfold run, call. destruct (op (world s)) as [answer w].
  exists [record answer]. simpl. rewrite HP. split; reflexivity.
Qed.

Lemma emitting_call_res (op : Response -> E -> Outcome unit * Response * E)
    (record : Outcome unit -> Effect) :
  (forall answer, P (record answer) = true) ->
  through (emitting P) (call_res op record).
Proof.
  intros HP s. unfold run, call_res.
  destruct (op (res s) (world s)) as [[answer r] w].
  exists [record answer]. simpl. rewrite HP. split; reflexivity.
Qed.

Lemma emitting_createEvent (ev : AuditEvent) :
  (forall h, P (AuditorCreateEvent h ev) = true) ->
  through (emitting P) (auditor_createEvent ev : M E Handle).
Proof.
  intros HP s. exists [AuditorCreateEvent (nextHandle s) ev]. simpl.
  rewrite HP. split; reflexivity.
Qed.

Lemma emitting_on_close (l : CloseListener) :
  P (ResOnClose l) = true -> through (emitting P) (res_on_close l : M E unit).
Proof.
  intros HP s. exists [ResOnClose l]. simpl. rewrite HP. split; reflexivity.
Qed.

Lemma emitting_now (svc : Services E) : through (emitting P) (now svc).
Proof.
  apply emitting_silent. intros s. unfold run, now.
  destruct (Date_now svc (world s)). reflexivity.
Qed.

Lemma emitting_uuid (svc : Services E) : through (emitting P) (uuid svc).
Proof.
  apply emitting_silent. intros s. unfold run, uuid.
  destruct (randomUUID svc (world s)). reflexivity.
Qed.

End Emitting.

(** Unfolds the handlers down to the primitives. *)
Ltac unfold_handlers :=
  unfold enter, fireClose,
    McpService.listTools, McpService.callTool, McpService.callToolBody,
    createStreamableRouter.post, createStreamableRouter.postTry,
    createStreamableRouter.postCatch, createStreamableRouter.get,
    createStreamableRouter.delete, createStreamableRouter.onClose,
    createSseRouter.get, createSseRouter.getTry, createSseRouter.getCatch,
    createSseRouter.onClose, createSseRouter.postMessages,
    auditCreateEvent, event_success, event_fail,
    res_status, res_json, res_writeHead, res_write, res_end, res_contentType.

(** Walks a handler down to its primitive steps, which [leaf] settles. *)
Ltac through_steps leaf :=
  repeat first
    [ lazymatch goal with
      | |- through _ (@mret _ _ _ _) =>
          apply through_ret; typeclasses eauto
      | |- through _ (throw _) => apply through_throw; typeclasses eauto
      | |- through _ get_store => apply through_get_store; typeclasses eauto
      | |- through _ (handleErrors _) =>
          apply through_handleErrors; [typeclasses eauto|]
      | |- through _ (@mbind _ _ _ _ _ _) =>
          apply through_bind; [typeclasses eauto| |intros ?]
      | |- through _ (try_catch _ _) =>
          apply through_try_catch; [typeclasses eauto| |intros ?]
      end
    | match goal with
      | |- through _ (if ?b then _ else _) => destruct b
      | |- through _ (match ?x with _ => _ end) => destruct x
      end
    | leaf ].

Ltac emitting_leaf :=
  idtac;
  lazymatch goal with
  | |- through _ (now _) => apply emitting_now
  | |- through _ (uuid _) => apply emitting_uuid
  | |- through _ (emit _) => apply emitting_emit; reflexivity
  | |- through _ (call _ _) => apply emitting_call; intros ?; reflexivity
  | |- through _ (call_res _ _) =>
      apply emitting_call_res; intros ?; reflexivity
  | |- through _ (auditor_createEvent _) =>
      apply emitting_createEvent; intros ?; reflexivity
  | |- through _ (res_on_close _) => apply emitting_on_close; reflexivity
  | |- through _ (createSseRouter.map_set _) =>
      unfold createSseRouter.map_set
  | |- through _ (createSseRouter.map_get _) =>
      unfold createSseRouter.map_get
  | |- through _ (createSseRouter.map_delete _) =>
      unfold createSseRouter.map_delete
  | |- through _ _ => apply emitting_silent; intros ?; reflexivity
  end.

(** X1.  Whatever entry point runs, on whatever request and with whatever
    collaborators, every audit event it creates has one of the ten event
    ids of the table, with the severity the table gives for that id. *)
Theorem events_are_tabled {E} (svc : Services E) (ep : EntryPoint)
    (s : Store E) :
  exists effects : list Effect,
    trace (snd (run (enter svc ep) s)) = trace s ++ effects
    /\ forallb tabled effects = true.
Proof.
  revert s. change (through (emitting tabled) (enter svc ep)).
  destruct ep as [c|c p|req|req|req|req|req|[req t cid c|req t tr c]];
    unfold_handlers; through_steps emitting_leaf.
Qed.

(** X2.  Only [POST /] of the stateless router and [GET /] of the legacy
    router resolve credentials: the request handlers of the protocol
    server, the method-not-allowed handlers, the close listeners and, in
    particular, the [POST /messages] side channel never call the auth
    service. *)
Theorem only_connections_authenticate {E} (svc : Services E) (ep : EntryPoint)
    (s : Store E) :
  authenticates ep = false ->
  exists effects : list Effect,
    trace (snd (run (enter svc ep) s)) = trace s ++ effects
    /\ forallb (fun eff => negb (isAuthCall eff)) effects = true.
Proof.
  intros Hep. revert s.
  change (through (emitting (fun eff => negb (isAuthCall eff))) (enter svc ep)).
  destruct ep as [c|c p|req|req|req|req|req|[req t cid c|req t tr c]];
    try discriminate Hep;
    unfold_handlers; through_steps emitting_leaf.
Qed.

Lemma only_connections_authenticate_witness :
  exists effects : list Effect,
    trace (snd (run (enter Demo.services (SseMessages knownSession))
                  storeWithSession)) = effects
    /\ forallb (fun eff => negb (isAuthCall eff)) effects = true.
Proof.
  destruct (only_connections_authenticate Demo.services
              (SseMessages knownSession) storeWithSession eq_refl)
    as (effects & Htrace & Hnever).
  exists effects. split; assumption.
Defined.

(** ** Projections of the store a run keeps *)

#[global] Instance keeping_preorder {E X} (f : Store E -> X) :
  PreOrder (keeping f).
Proof.
  split; unfold keeping.
  - intros s. reflexivity.
  - intros s1 s2 s3 H1 H2. congruence.
Qed.

#[global] Instance keepingKeys_preorder {E} : PreOrder (@keepingKeys E).
Proof.
  split; unfold keepingKeys.
  - intros s H. exact H.
  - intros s1 s2 s3 H1 H2 H. exact (H2 (H1 H)).
Qed.

(** Settles a primitive step that leaves the projection alone. *)
Ltac keeping_leaf :=
  idtac;
  intros ?s;
  unfold keeping, keepingKeys, run, emit, call, call_res, now, uuid,
    auditor_createEvent, res_on_close, set_res, set_credentials,
    set_clientId;
  repeat match goal with
         | |- context [match ?x with pair _ _ => _ end] => destruct x
         end;
  simpl; solve [reflexivity | auto].

Ltac keeping_map_leaf :=
  idtac;
  lazymatch goal with
  | |- through _ (createSseRouter.map_get _) =>
      unfold createSseRouter.map_get
  | |- through _ _ => keeping_leaf
  end.

(** X3.  The session registry is written by the legacy [GET /] handler and
    by the close listener it registers, and by nothing else: every other
    entry point, for every request and whatever the collaborators answer,
    leaves the registry exactly as it was. *)
Theorem registry_written_by_streams_only {E} (svc : Services E)
    (ep : EntryPoint) (s : Store E) :
  registers ep = false ->
  transportsToSessionId (snd (run (enter svc ep) s)) = transportsToSessionId s.
Proof.
  intros Hep. revert s.
  change (through (keeping transportsToSessionId) (enter svc ep)).
  destruct ep as [c|c p|req|req|req|req|req|[req t cid c|req t tr c]];
    try discriminate Hep;
    unfold_handlers; through_steps keeping_map_leaf.
Qed.

Lemma registry_written_by_streams_only_witness :
  transportsToSessionId
    (snd (run (enter Demo.services (SseMessages knownSession)) storeWithSession))
  = transportsToSessionId storeWithSession.
Proof.
  exact (registry_written_by_streams_only Demo.services
           (SseMessages knownSession) storeWithSession eq_refl).
Defined.

Lemma keepingKeys_map_set {E} (t : SSEServerTransport) :
  through (@keepingKeys E) (createSseRouter.map_set t).
Proof.
  intros s Hkeys k t' Hget.
  unfold run, createSseRouter.map_set in Hget. simpl in Hget.
  destruct (decide (sessionId t = k)) as [<-|Hne].
  - rewrite lookup_insert_eq in Hget. congruence.
  - rewrite lookup_insert_ne in Hget by assumption. exact (Hkeys k t' Hget).
Qed.

Lemma keepingKeys_map_delete {E} (sid : string) :
  through (@keepingKeys E) (createSseRouter.map_delete sid).
Proof.
  intros s Hkeys k t' Hget.
  unfold run, createSseRouter.map_delete in Hget. simpl in Hget.
  destruct (decide (sid = k)) as [<-|Hne].
  - rewrite lookup_delete_eq in Hget. discriminate.
  - rewrite lookup_delete_ne in Hget by assumption. exact (Hkeys k t' Hget).
Qed.

Ltac keys_leaf :=
  idtac;
  lazymatch goal with
  | |- through _ (createSseRouter.map_set _) => apply keepingKeys_map_set
  | |- through _ (createSseRouter.map_delete _) =>
      apply keepingKeys_map_delete
  | |- through _ (createSseRouter.map_get _) =>
      unfold createSseRouter.map_get
  | |- through _ _ => keeping_leaf
  end.

(** X4.  Every entry of the registry is stored under the session id of its
    own transport, and every entry point keeps it so, whatever the request
    and the collaborators' answers. *)
Theorem registry_keyed_by_sessionId {E} (svc : Services E) (ep : EntryPoint)
    (s : Store E) :
  (forall (k : string) (t : SSEServerTransport),
      transportsToSessionId s !! k = Some t -> sessionId t = k) ->
  forall (k : string) (t : SSEServerTransport),
    transportsToSessionId (snd (run (enter svc ep) s)) !! k = Some t ->
    sessionId t = k.
Proof.
  revert s. change (through keepingKeys (enter svc ep)).
  destruct ep as [c|c p|req|req|req|req|req|[req t cid c|req t tr c]];
    unfold_handlers; through_steps keys_leaf.
Qed.

Lemma registry_keyed_by_sessionId_witness :
  match transportsToSessionId
          (snd (run (enter Demo.services (SseGet Demo.authenticated))
                  storeWithSession)) !! "s-1" with
  | Some t => sessionId t = "s-1"
  | None => True
  end.
Proof.
  destruct (transportsToSessionId
              (snd (run (enter Demo.services (SseGet Demo.authenticated))
                      storeWithSession)) !! "s-1") as [t|] eqn:Hafter;
    [|exact I].
  apply (registry_keyed_by_sessionId Demo.services (SseGet Demo.authenticated)
           storeWithSession); [|exact Hafter].
  intros k t' Hget. unfold storeWithSession in Hget. simpl in Hget.
  apply lookup_singleton_Some in Hget as [<- <-]. reflexivity.
Defined.

(** ** The list handler and its audit trail *)

(** X5.  When the listing answers with [actions], the list handler emits,
    after the listing, exactly one [mcp-tool-discovery] event, of low
    severity and without a request, whose [toolCount] is the number of
    actions listed and so the number of tools returned; an empty catalog
    gives an empty [tools] array and a count of zero. *)
Theorem listTools_counts_tools {E} (svc : Services E)
    (credentials : BackstageCredentials) (s : Store E)
    (actions : list Action) (w : E) :
  actions_list svc credentials (world s) = (Returned actions, w) ->
  exists (tools : list Json) (ev : AuditEvent) (m : Meta) (s' : Store E),
    run (McpService.listTools svc credentials) s
      = (Returned (JObj [("tools", JArr tools)]), s')
    /\ trace s' = trace s ++ [ActionsList credentials (Returned actions);
                              AuditorCreateEvent (nextHandle s) ev]
    /\ eventId ev = "mcp-tool-discovery"
    /\ severityLevel ev = low
    /\ request ev = None
    /\ meta ev = Some m
    /\ assoc "toolCount" m = Some (Some (num (length tools)))
    /\ assoc "principal" m
       = Some (JStr <$> userEntityRef (principal credentials))
    /\ length tools = length actions
    /\ (actions = [] -> tools = []).
Proof.
  intros Hlist. unfold McpService.listTools. unfold_m. rewrite Hlist. simpl.
  do 4 eexists. split; [reflexivity|]. simpl.
  split; [trace_eq|].
  repeat split; try reflexivity.
  - rewrite length_map. reflexivity.
  - apply length_map.
  - intros ->. reflexivity.
Qed.

Lemma listTools_counts_tools_witness :
  exists (tools : list Json) (ev : AuditEvent) (m : Meta) (s' : Store nat),
    run (McpService.listTools Demo.services Demo.guest) Demo.store0
      = (Returned (JObj [("tools", JArr tools)]), s')
    /\ meta ev = Some m
    /\ assoc "toolCount" m = Some (Some (JNum 2))
    /\ length tools = 2%nat.
Proof.
  destruct (listTools_counts_tools Demo.services Demo.guest Demo.store0
              Demo.catalog 0%nat eq_refl)
    as (tools & ev & m & s' & Hrun & _ & _ & _ & _ & Hm & Hcount & _ & Hlen & _).
  exists tools, ev, m, s'. rewrite Hlen in Hcount.
  repeat split; assumption.
Defined.

(** X6.  When the listing fails, the list handler throws the very error
    the backend threw, and it has emitted no audit event and handed out
    no handle: the failed listing is the only effect. *)
Theorem listTools_listing_failure {E} (svc : Services E)
    (credentials : BackstageCredentials) (s : Store E)
    (error : Thrown) (w : E) :
  actions_list svc credentials (world s) = (Threw error, w) ->
  exists s' : Store E,
    run (McpService.listTools svc credentials) s = (Threw error, s')
    /\ trace s' = trace s ++ [ActionsList credentials (Threw error)]
    /\ nextHandle s' = nextHandle s.
Proof.
  intros Hlist. unfold McpService.listTools. unfold_m. rewrite Hlist. simpl.
  eexists. repeat split; reflexivity.
Qed.

Lemma listTools_listing_failure_witness :
  exists s' : Store nat,
    run (McpService.listTools
           (faulty (Threw unavailable) (Returned tt) (Returned tt) false)
           Demo.guest) Demo.store0
      = (Threw unavailable, s')
    /\ trace s' = [ActionsList Demo.guest (Threw unavailable)]
    /\ nextHandle s' = 0%nat.
Proof.
  exact (listTools_listing_failure
           (faulty (Threw unavailable) (Returned tt) (Returned tt) false)
           Demo.guest Demo.store0 unavailable 0%nat eq_refl).
Defined.

(** ** The invocation handler *)

Lemma find_first {A} (p : A -> bool) (before after : list A) (a : A) :
  forallb (fun x => negb (p x)) before = true -> p a = true ->
  List.find p (before ++ a :: after) = Some a.
Proof.
  induction before as [|x before IH]; simpl; intros Hbefore Ha.
  - rewrite Ha. reflexivity.
  - apply andb_prop in Hbefore as [Hx Hbefore].
    apply negb_true_iff in Hx. rewrite Hx. auto.
Qed.

(** X7.  When several actions of the catalog carry the requested name, the
    first of them in listing order is the one invoked, exactly once, with
    the request's arguments as they came (also when absent) under the
    session's credential.  The handle is then completed with the elapsed
    time between the two clock readings, and with the length of the
    serialized output on success or the error's type and message on
    failure; a backend failure is rethrown as it is. *)
Theorem callTool_invokes_first_match {E} (svc : Services E)
    (credentials : BackstageCredentials) (params : CallToolParams)
    (s : Store E) (t0 t1 : Z) (w0 w1 w2 w3 : E)
    (before after : list Action) (action : Action) (answer : Outcome Json) :
  Date_now svc (world s) = (t0, w0) ->
  actions_list svc credentials w0
    = (Returned (before ++ action :: after), w1) ->
  forallb (fun a => negb (String.eqb (name a) (tool_name params))) before
    = true ->
  name action = tool_name params ->
  actions_invoke svc (id action) (arguments params) credentials w1
    = (answer, w2) ->
  Date_now svc w2 = (t1, w3) ->
  exists (out : Outcome Json) (s' : Store E) (started : AuditEvent),
    run (McpService.callToolBody svc credentials params) s = (out, s')
    /\ trace s'
       = trace s
         ++ [AuditorCreateEvent (nextHandle s) started;
             ActionsList credentials (Returned (before ++ action :: after));
             ActionsInvoke (id action) (arguments params) credentials answer;
             match answer with
             | Returned produced =>
                 AuditorSuccess (nextHandle s)
                   (Some [("duration", Some (JNum (t1 - t0)));
                          ("outputSize",
                           Some (num (String.length (JSON_stringify produced))));
                          ("principal", principalOf credentials)])
             | Threw error =>
                 AuditorFail (nextHandle s) error
                   (Some [("duration", Some (JNum (t1 - t0)));
                          ("errorType", Some (JStr (errorType error)));
                          ("errorMessage", Some (JStr (errorMessage error)));
                          ("principal", principalOf credentials)])
             end]
    /\ match answer with
       | Returned produced =>
           out = Returned
                   (JObj [("content",
                           JArr [JObj [("type", JStr "text");
                                       ("text",
                                        JStr (McpService.fenced produced))]])])
       | Threw error => out = Threw error
       end.
Proof.
  intros Hnow Hlist Hbefore Hname Hinvoke Hfinish.
  assert (List.find (fun a => String.eqb (name a) (tool_name params))
            (before ++ action :: after) = Some action) as Hfind.
  { apply find_first; [exact Hbefore|].
    rewrite Hname. apply String.eqb_refl. }
  unfold McpService.callToolBody. unfold_m.
  rewrite Hnow. simpl. rewrite Hlist. simpl. rewrite Hfind. simpl.
  rewrite Hinvoke. simpl.
  destruct answer as [produced|error]; simpl; rewrite Hfinish; simpl;
    do 3 eexists; (split; [reflexivity|]); simpl; (split; [trace_eq|]);
    reflexivity.
Qed.

Lemma callTool_invokes_first_match_witness :
  exists (s' : Store nat) (started : AuditEvent) (completion : Effect),
    run (McpService.callToolBody twins Demo.guest Demo.callCreateRepo)
      Demo.store0
      = (Returned
           (JObj [("content",
                   JArr [JObj [("type", JStr "text");
                               ("text",
                                JStr (McpService.fenced
                                        Demo.createRepoOutput))]])]), s')
    /\ trace s'
       = [AuditorCreateEvent 0%nat started;
          ActionsList Demo.guest (Returned twinCatalog);
          ActionsInvoke "scaffolder:create-repo"
            (Some (JObj [("name", JStr "x")])) Demo.guest
            (Returned Demo.createRepoOutput);
          completion].
Proof.
  destruct (callTool_invokes_first_match twins Demo.guest Demo.callCreateRepo
              Demo.store0 1000 1001 1%nat 1%nat 1%nat 2%nat
              [Demo.dropRepo] [createRepoTwin] Demo.createRepo
              (Returned Demo.createRepoOutput)
              eq_refl eq_refl eq_refl eq_refl eq_refl eq_refl)
    as (out & s' & started & Hrun & Htrace & Hout).
  exists s', started. eexists. rewrite Hrun, Hout.
  split; [reflexivity|exact Htrace].
Defined.

(** X8.  When the listing inside an invocation fails, no lookup takes
    place: the handler emits no [mcp-tool-not-found] event and never asks
    the backend to invoke; it completes the execution request as failed,
    with the elapsed time and the error's type and message ([UnknownError]
    and the string form for a thrown value that is no [Error]), and
    rethrows the error it caught. *)
Theorem callTool_listing_failure {E} (svc : Services E)
    (credentials : BackstageCredentials) (params : CallToolParams)
    (s : Store E) (t0 t1 : Z) (w0 w1 w2 : E) (error : Thrown) :
  Date_now svc (world s) = (t0, w0) ->
  actions_list svc credentials w0 = (Threw error, w1) ->
  Date_now svc w1 = (t1, w2) ->
  exists (s' : Store E) (started : AuditEvent),
    run (McpService.callToolBody svc credentials params) s = (Threw error, s')
    /\ trace s'
       = trace s
         ++ [AuditorCreateEvent (nextHandle s) started;
             ActionsList credentials (Threw error);
             AuditorFail (nextHandle s) error
               (Some [("duration", Some (JNum (t1 - t0)));
                      ("errorType",
                       Some (JStr (match error with
                                   | NonError _ => "UnknownError"
                                   | _ => error_name error
                                   end)));
                      ("errorMessage",
                       Some (JStr (match error with
                                   | NonError shown => shown
                                   | _ => error_message error
                                   end)));
                      ("principal", principalOf credentials)])]
    /\ nextHandle s' = S (nextHandle s).
Proof.
  intros Hnow Hlist Hfinish.
  unfold McpService.callToolBody. unfold_m.
  rewrite Hnow. simpl. rewrite Hlist. simpl. rewrite Hfinish. simpl.
  do 2 eexists. split; [reflexivity|]. simpl.
  split; [|reflexivity].
  destruct error; trace_eq.
Qed.

Lemma callTool_listing_failure_witness :
  exists (s' : Store nat),
    run (McpService.callToolBody offline Demo.guest Demo.callCreateRepo)
      Demo.store0 = (Threw unavailable, s')
    /\ createdEvents (trace s') = ["mcp-tool-execution-request"]
    /\ existsb isInvoke (trace s') = false.
Proof.
  destruct (callTool_listing_failure offline Demo.guest Demo.callCreateRepo
              Demo.store0 1000 1001 1%nat 1%nat 2%nat unavailable
              eq_refl eq_refl eq_refl)
    as (s' & started & Hrun & Htrace & _).
  exists s'. split; [exact Hrun|].
  rewrite Htrace.
  assert (eventId started = "mcp-tool-execution-request") as Hid.
  { unfold run in Hrun. vm_compute in Hrun. injection Hrun as <-.
    simpl in Htrace. injection Htrace as <-. reflexivity. }
  simpl. rewrite Hid. split; reflexivity.
Defined.

(** X9.  The name of a tool descriptor is its invocation key: for every
    descriptor the list handler builds from a catalog, an invocation of
    its name against the same catalog finds an action of that name in the
    catalog and asks the backend to invoke it; it never ends in
    [mcp-tool-not-found]. *)
Theorem listed_tool_resolves {E} (svc : Services E)
    (credentials : BackstageCredentials) (params : CallToolParams)
    (s : Store E) (t0 : Z) (w0 w1 : E) (actions : list Action) (tool : Json) :
  In tool (map McpService.toolOf actions) ->
  prop "name" tool = Some (JStr (tool_name params)) ->
  Date_now svc (world s) = (t0, w0) ->
  actions_list svc credentials w0 = (Returned actions, w1) ->
  exists (action : Action) (answer out : Outcome Json) (s' : Store E)
         (started : AuditEvent) (completion : Effect),
    In action actions
    /\ name action = tool_name params
    /\ run (McpService.callToolBody svc credentials params) s = (out, s')
    /\ trace s'
       = trace s
         ++ [AuditorCreateEvent (nextHandle s) started;
             ActionsList credentials (Returned actions);
             ActionsInvoke (id action) (arguments params) credentials answer;
             completion].
Proof.
  intros Htool Hname Hnow Hlist.
  apply in_map_iff in Htool as (listed & <- & Hlisted).
  simpl in Hname. injection Hname as Hname.
  destruct (List.find (fun a => String.eqb (name a) (tool_name params)) actions)
    as [action|] eqn:Hfind.
  - apply find_some in Hfind as Hfound. destruct Hfound as [Hin Heq].
    apply String.eqb_eq in Heq.
    unfold McpService.callToolBody. unfold_m.
    rewrite Hnow. simpl. rewrite Hlist. simpl. rewrite Hfind. simpl.
    destruct (actions_invoke svc (id action) (arguments params) credentials w1)
      as [[produced|error] w2] eqn:Hinvoke; simpl;
      destruct (Date_now svc w2) as [t1 w3]; simpl;
      exists action; do 5 eexists;
      (split; [exact Hin|]); (split; [exact Heq|]);
      (split; [reflexivity|]); simpl; trace_eq.
  - exfalso. pose proof (find_none _ _ Hfind listed Hlisted) as Hno.
    simpl in Hno. rewrite Hname, String.eqb_refl in Hno. discriminate.
Qed.

Lemma listed_tool_resolves_witness :
  exists (action : Action) (s' : Store nat),
    In action twinCatalog
    /\ name action = "create-repo"
    /\ snd (run (McpService.callToolBody twins Demo.guest Demo.callCreateRepo)
              Demo.store0) = s'
    /\ existsb isInvoke (trace s') = true.
Proof.
  destruct (listed_tool_resolves twins Demo.guest Demo.callCreateRepo
              Demo.store0 1000 1%nat 1%nat twinCatalog
              (McpService.toolOf createRepoTwin)
              (or_intror (or_intror (or_introl eq_refl))) eq_refl
              eq_refl eq_refl)
    as (action & answer & out & s' & started & completion
        & Hin & Hname & Hrun & Htrace).
  exists action, s'. split; [exact Hin|]. split; [exact Hname|].
  split; [rewrite Hrun; reflexivity|].
  rewrite Htrace. reflexivity.
Defined.

(** ** The stateless router: how an exchange ends *)


(** X11.  When authentication, connection and request handling all
    succeed, [POST /] performs exactly these steps in this order:
    auth-attempt event, credential resolution, success of the auth handle,
    connection, connection-established event, request handling,
    registration of the close listener, success of the connection handle.
    The adapter itself writes nothing to the response, which is as the
    request handling left it; the listener holds the clock reading taken
    at the start, the generated client id and the credential. *)
Theorem post_success {E} (svc : Services E) (req : Request) (s : Store E)
    (t0 : Z) (w0 w1 w2 w3 w4 : E) (creds : BackstageCredentials)
    (cid : string) (r3 r4 : Response) :
  Date_now svc (world s) = (t0, w0) ->
  httpAuth_credentials svc req w0 = (Returned creds, w1) ->
  randomUUID svc w1 = (cid, w2) ->
  server_connect svc (res s) w2 = (Returned tt, r3, w3) ->
  transport_handleRequest svc req r3 w3 = (Returned tt, r4, w4) ->
  exists (s' : Store E) (attempt established : AuditEvent) (m : Meta),
    run (createStreamableRouter.post svc req) s = (Returned tt, s')
    /\ trace s'
       = trace s
         ++ [AuditorCreateEvent (nextHandle s) attempt;
             HttpAuthCredentials req (Returned creds);
             AuditorSuccess (nextHandle s)
               (Some [("principal", principalOf creds)]);
             ServerConnect (Returned tt);
             AuditorCreateEvent (S (nextHandle s)) established;
             TransportHandleRequest req (Returned tt);
             ResOnClose (StreamableClose req t0 (Some cid) (Some creds));
             AuditorSuccess (S (nextHandle s)) None]
    /\ eventId attempt = "mcp-auth-attempt"
    /\ eventId established = "mcp-connection-established"
    /\ meta established = Some m
    /\ assoc "clientId" m = Some (Some (JStr cid))
    /\ assoc "principal" m = Some (principalOf creds)
    /\ res s' = r4
    /\ world s' = w4
    /\ closeListeners s'
       = closeListeners s ++ [StreamableClose req t0 (Some cid) (Some creds)].
Proof.
  intros Hnow Hauth Huuid Hconnect Hhandle.
  unfold createStreamableRouter.post, createStreamableRouter.postTry.
  unfold_m.
  rewrite Hnow. simpl. rewrite Hauth. simpl. rewrite Huuid. simpl.
  rewrite Hconnect. simpl. rewrite Hhandle. simpl.
  do 4 eexists. split; [reflexivity|]. simpl.
  split; [trace_eq|]. repeat split; reflexivity.
Qed.

Lemma post_success_witness :
  exists (s' : Store nat),
    run (createStreamableRouter.post Demo.services Demo.authenticated)
      Demo.store0 = (Returned tt, s')
    /\ createdEvents (trace s')
       = ["mcp-auth-attempt"; "mcp-connection-established"]
    /\ closeListeners s'
       = [StreamableClose Demo.authenticated 1000 (Some "uuid-1")
            (Some Demo.guest)].
Proof.
  destruct (post_success Demo.services Demo.authenticated Demo.store0
              1000 1%nat 1%nat 2%nat 2%nat 2%nat Demo.guest "uuid-1"
              freshResponse
              {| statusCode := 200; contentType := Some "application/json";
                 headersSent := true; written := ["{}"]; finished := true |}
              eq_refl eq_refl eq_refl eq_refl eq_refl)
    as (s' & attempt & established & m & Hrun & Htrace & Ha & He & _ & _ & _
        & _ & _ & Hl).
  exists s'. split; [exact Hrun|].
  rewrite Htrace. simpl. rewrite Ha, He. split; [reflexivity|exact Hl].
Defined.

(** X12.  When request handling throws after the connection was
    established, the connection-established handle is never completed,
    neither as success nor as failure, and no close listener is
    registered; the [mcp-http-error] event carries the client id and the
    principal of the connection; and the adapter writes the 500 envelope
    only if the request handling had not committed the response, which it
    otherwise leaves as it found it. *)
Theorem post_request_handling_failure {E} (svc : Services E) (req : Request)
    (s : Store E) (t0 : Z) (w0 w1 w2 w3 w4 : E) (creds : BackstageCredentials)
    (cid : string) (r3 r4 : Response) (error : Thrown) :
  Date_now svc (world s) = (t0, w0) ->
  httpAuth_credentials svc req w0 = (Returned creds, w1) ->
  randomUUID svc w1 = (cid, w2) ->
  server_connect svc (res s) w2 = (Returned tt, r3, w3) ->
  transport_handleRequest svc req r3 w3 = (Threw error, r4, w4) ->
  exists (s' : Store E) (effects : list Effect) (failure : AuditEvent)
         (m : Meta),
    run (createStreamableRouter.post svc req) s = (Returned tt, s')
    /\ trace s' = trace s ++ effects
    /\ createdEvents effects
       = ["mcp-auth-attempt"; "mcp-connection-established"; "mcp-http-error"]
    /\ completions (nextHandle s) effects = [true]
    /\ completions (S (nextHandle s)) effects = []
    /\ completions (S (S (nextHandle s))) effects = [false]
    /\ In (AuditorCreateEvent (S (S (nextHandle s))) failure) effects
    /\ meta failure = Some m
    /\ assoc "clientId" m = Some (Some (JStr cid))
    /\ assoc "principal" m = Some (principalOf creds)
    /\ closeListeners s' = closeListeners s
    /\ res s' = (if headersSent r4 then r4 else respondInternalError r4).
Proof.
  intros Hnow Hauth Huuid Hconnect Hhandle.
  unfold createStreamableRouter.post, createStreamableRouter.postTry,
    createStreamableRouter.postCatch.
  unfold_m.
  rewrite Hnow. simpl. rewrite Hauth. simpl. rewrite Huuid. simpl.
  rewrite Hconnect. simpl. rewrite Hhandle. simpl.
  assert (forall n : nat, Nat.eqb n (S n) = false) as Hn1
    by (intros n; apply Nat.eqb_neq; lia).
  assert (forall n : nat, Nat.eqb n (S (S n)) = false) as Hn2
    by (intros n; apply Nat.eqb_neq; lia).
  assert (forall n : nat, Nat.eqb (S n) n = false) as Hn3
    by (intros n; apply Nat.eqb_neq; lia).
  assert (forall n : nat, Nat.eqb (S (S n)) n = false) as Hn4
    by (intros n; apply Nat.eqb_neq; lia).
  assert (forall n : nat, Nat.eqb (S (S n)) (S n) = false) as Hn5
    by (intros n; apply Nat.eqb_neq; lia).
  assert (forall n : nat, Nat.eqb (S n) (S (S n)) = false) as Hn6
    by (intros n; apply Nat.eqb_neq; lia).
  destruct (isError error); simpl; destruct (headersSent r4) eqn:Hsent; simpl;
    do 4 eexists; (split; [reflexivity|]); simpl;
    (split; [trace_eq|]); unfold completions; cbn -[Nat.eqb];
    rewrite ?Nat.eqb_refl, ?Hn1, ?Hn2, ?Hn3, ?Hn4, ?Hn5, ?Hn6;
    cbn -[Nat.eqb];
    repeat split; try reflexivity; try (simpl; tauto).
Qed.

Lemma post_request_handling_failure_witness :
  exists (s' : Store nat),
    run (createStreamableRouter.post brokenStream Demo.authenticated)
      Demo.store0 = (Returned tt, s')
    /\ completions 1%nat (trace s') = []
    /\ closeListeners s' = []
    /\ written (res s') = [].
Proof.
  destruct (post_request_handling_failure brokenStream Demo.authenticated
              Demo.store0 1000 1%nat 1%nat 2%nat 2%nat 2%nat Demo.guest
              "uuid-1" freshResponse
              {| statusCode := 200; contentType := Some "text/event-stream";
                 headersSent := true; written := []; finished := false |}
              unavailable eq_refl eq_refl eq_refl eq_refl eq_refl)
    as (s' & effects & failure & m & Hrun & Htrace & _ & _ & Hnone & _ & _ & _
        & _ & _ & Hl & Hres).
  exists s'. split; [exact Hrun|].
  rewrite Htrace, Hl, Hres. repeat split; try reflexivity. exact Hnone.
Defined.

(** X13.  The close listener of the stateless router emits one
    [mcp-connection-closed] event of low severity with the client id and
    principal it was registered with and, as duration, the time from the
    clock reading it was registered with to the reading it takes itself;
    then it closes the transport and after it the server.  It writes
    nothing to the response and registers no further listener. *)
Theorem streamable_close_reports_connection {E} (svc : Services E)
    (req : Request) (connectionStart finish : Z)
    (cid : option string) (creds : option BackstageCredentials)
    (s : Store E) (w : E) :
  Date_now svc (world s) = (finish, w) ->
  exists (s' : Store E) (closed : AuditEvent),
    run (fireClose svc (StreamableClose req connectionStart cid creds)) s
      = (Returned tt, s')
    /\ trace s' = trace s ++ [AuditorCreateEvent (nextHandle s) closed;
                              TransportClose; ServerClose]
    /\ eventId closed = "mcp-connection-closed"
    /\ severityLevel closed = low
    /\ meta closed
       = Some [("transport", Some (JStr "streamable"));
               ("clientId", JStr <$> cid);
               ("duration", Some (JNum (finish - connectionStart)));
               ("principal", principalOfOpt creds)]
    /\ res s' = res s
    /\ closeListeners s' = closeListeners s.
Proof.
  intros Hnow. unfold fireClose, createStreamableRouter.onClose. unfold_m.
  rewrite Hnow. simpl.
  do 2 eexists. split; [reflexivity|]. simpl.
  split; [trace_eq|]. repeat split; reflexivity.
Qed.

Lemma streamable_close_reports_connection_witness :
  exists (s' : Store nat) (closed : AuditEvent) (m : Meta),
    run (fireClose Demo.services
           (StreamableClose Demo.authenticated 990 (Some "uuid-1")
              (Some Demo.guest))) Demo.store0 = (Returned tt, s')
    /\ trace s' = [AuditorCreateEvent 0%nat closed; TransportClose; ServerClose]
    /\ meta closed = Some m
    /\ assoc "clientId" m = Some (Some (JStr "uuid-1"))
    /\ assoc "duration" m = Some (Some (JNum 10)).
Proof.
  destruct (streamable_close_reports_connection Demo.services
              Demo.authenticated 990 1000 (Some "uuid-1") (Some Demo.guest)
              Demo.store0 1%nat eq_refl)
    as (s' & closed & Hrun & Htrace & _ & _ & Hmeta & _).
  exists s', closed. eexists.
  split; [exact Hrun|]. split; [exact Htrace|].
  split; [exact Hmeta|]. split; reflexivity.
Defined.

(** ** The legacy router: sessions *)

(** X14.  Once credentials are resolved, the legacy [GET /] handler
    registers the new transport under its generated session id, with
    [<request url>/messages] as endpoint, and installs its close listener
    before it connects the stream.  Both therefore stay in place whatever
    connecting answers: on success the connection-established handle is
    completed and the handler returns; on failure an
    [mcp-connection-error] event is emitted, the handle stays uncompleted
    and the error is rethrown, with the session still registered. *)
Theorem sse_get_registers_before_connecting {E} (svc : Services E)
    (req : Request) (s : Store E) (t0 : Z) (w0 w1 w2 w3 : E)
    (creds : BackstageCredentials) (sid : string) (answer : Outcome unit)
    (r3 : Response) :
  Date_now svc (world s) = (t0, w0) ->
  httpAuth_credentials svc req w0 = (Returned creds, w1) ->
  randomUUID svc w1 = (sid, w2) ->
  server_connect svc (res s) w2 = (answer, r3, w3) ->
  exists (s' : Store E) (attempt established : AuditEvent)
         (ending : list Effect),
    run (createSseRouter.get svc req) s = (answer, s')
    /\ trace s'
       = trace s
         ++ [AuditorCreateEvent (nextHandle s) attempt;
             HttpAuthCredentials req (Returned creds);
             AuditorSuccess (nextHandle s)
               (Some [("principal", principalOf creds)]);
             MapSet sid;
             AuditorCreateEvent (S (nextHandle s)) established;
             ResOnClose (SseClose req t0 (transportFor req sid) (Some creds));
             ServerConnect answer]
         ++ ending
    /\ eventId established = "mcp-connection-established"
    /\ transportsToSessionId s'
       = <[sid := transportFor req sid]> (transportsToSessionId s)
    /\ transportsToSessionId s' !! sid = Some (transportFor req sid)
    /\ closeListeners s'
       = closeListeners s
         ++ [SseClose req t0 (transportFor req sid) (Some creds)]
    /\ res s' = r3
    /\ match answer with
       | Returned _ => ending = [AuditorSuccess (S (nextHandle s)) None]
       | Threw error =>
           exists failure : AuditEvent,
             ending = [AuditorCreateEvent (S (S (nextHandle s))) failure]
             /\ eventId failure = "mcp-connection-error"
             /\ severityLevel failure = high
       end.
Proof.
  intros Hnow Hauth Huuid Hconnect.
  unfold createSseRouter.get, createSseRouter.getTry, createSseRouter.getCatch,
    createSseRouter.map_set.
  unfold_m.
  rewrite Hnow. simpl. rewrite Hauth. simpl. rewrite Huuid. simpl.
  rewrite Hconnect. simpl.
  destruct answer as [[]|error]; simpl;
    do 4 eexists; (split; [reflexivity|]); simpl;
    (split; [trace_eq|]); (split; [reflexivity|]);
    (split; [reflexivity|]);
    (split; [apply lookup_insert_eq|]);
    (split; [reflexivity|]); (split; [reflexivity|]).
  - reflexivity.
  - eexists. repeat split; reflexivity.
Qed.

Lemma sse_get_registers_before_connecting_witness :
  exists (s' : Store nat),
    run (createSseRouter.get brokenConnect Demo.authenticated) Demo.store0
      = (Threw unavailable, s')
    /\ transportsToSessionId s' !! "uuid-1"
       = Some (transportFor Demo.authenticated "uuid-1")
    /\ closeListeners s'
       = [SseClose Demo.authenticated 1000
            (transportFor Demo.authenticated "uuid-1") (Some Demo.guest)].
Proof.
  destruct (sse_get_registers_before_connecting brokenConnect
              Demo.authenticated Demo.store0 1000 1%nat 1%nat 2%nat 2%nat
              Demo.guest "uuid-1" (Threw unavailable) freshResponse
              eq_refl eq_refl eq_refl eq_refl)
    as (s' & attempt & established & ending & Hrun & _ & _ & _ & Hget & Hl & _).
  exists s'. repeat split; assumption.
Defined.

(** X15.  A message posted to the side channel with the session id a
    legacy [GET /] has registered reaches the transport that [GET /] built:
    it is looked up and handed to the transport's message handler, the
    side channel answers (or throws) what that handler answers, the
    response is as the handler left it, and no audit event is created. *)
Theorem sse_message_reaches_registered_transport {E} (svc : Services E)
    (req msg : Request) (s : Store E) (t0 : Z) (w0 w1 w2 w3 w4 : E)
    (creds : BackstageCredentials) (sid : string)
    (answer reply : Outcome unit) (r3 r4 : Response) :
  Date_now svc (world s) = (t0, w0) ->
  httpAuth_credentials svc req w0 = (Returned creds, w1) ->
  randomUUID svc w1 = (sid, w2) ->
  server_connect svc (res s) w2 = (answer, r3, w3) ->
  query_sessionId msg = Some sid ->
  sid <> "" ->
  transport_handlePostMessage svc (transportFor req sid) msg r3 w3
    = (reply, r4, w4) ->
  exists (s1 s2 : Store E),
    run (createSseRouter.get svc req) s = (answer, s1)
    /\ run (createSseRouter.postMessages svc msg) s1 = (reply, s2)
    /\ trace s2 = trace s1 ++ [MapGet sid;
                               TransportHandlePostMessage sid msg reply]
    /\ res s2 = r4
    /\ nextHandle s2 = nextHandle s1
    /\ transportsToSessionId s2 = transportsToSessionId s1.
Proof.
  intros Hnow Hauth Huuid Hconnect Hq Hne Hpost.
  destruct sid as [|c sid']; [congruence|].
  unfold createSseRouter.get, createSseRouter.getTry, createSseRouter.getCatch,
    createSseRouter.map_set, createSseRouter.postMessages,
    createSseRouter.map_get.
  rewrite Hq. unfold_m.
  rewrite Hnow. simpl. rewrite Hauth. simpl. rewrite Huuid. simpl.
  rewrite Hconnect. simpl.
  destruct answer as [[]|error]; simpl;
    do 2 eexists; (split; [reflexivity|]); simpl;
    rewrite lookup_insert_eq; simpl;
    unfold transportFor in Hpost; rewrite Hpost; simpl;
    repeat split; try reflexivity; trace_eq.
Qed.

Lemma sse_message_reaches_registered_transport_witness :
  exists (s1 s2 : Store nat),
    run (createSseRouter.get Demo.services Demo.authenticated) Demo.store0
      = (Returned tt, s1)
    /\ run (createSseRouter.postMessages Demo.services (messageFor "uuid-1")) s1
       = (Returned tt, s2)
    /\ statusCode (res s2) = 202.
Proof.
  destruct (sse_message_reaches_registered_transport Demo.services
              Demo.authenticated (messageFor "uuid-1") Demo.store0
              1000 1%nat 1%nat 2%nat 2%nat 2%nat Demo.guest "uuid-1"
              (Returned tt) (Returned tt) freshResponse
              {| statusCode := 202; contentType := None; headersSent := true;
                 written := ["Accepted"]; finished := true |}
              eq_refl eq_refl eq_refl eq_refl eq_refl ltac:(discriminate)
              eq_refl)
    as (s1 & s2 & Hget & Hmsg & _ & Hres & _).
  exists s1, s2. split; [exact Hget|]. split; [exact Hmsg|].
  rewrite Hres. reflexivity.
Defined.

(** X16.  A legacy [GET /] whose credential resolution fails registers
    nothing: the registry and the close listeners are as before, no
    session id is generated and the stream is never connected.  The
    [mcp-connection-error] event it emits carries the error's type and
    message and no principal, and the handler rethrows the error. *)
Theorem sse_get_auth_failure_registers_nothing {E} (svc : Services E)
    (req : Request) (s : Store E) (t0 : Z) (w0 w1 : E) (error : Thrown) :
  Date_now svc (world s) = (t0, w0) ->
  httpAuth_credentials svc req w0 = (Threw error, w1) ->
  exists (s' : Store E) (attempt failure : AuditEvent),
    run (createSseRouter.get svc req) s = (Threw error, s')
    /\ trace s' = trace s ++ [AuditorCreateEvent (nextHandle s) attempt;
                              HttpAuthCredentials req (Threw error);
                              AuditorCreateEvent (S (nextHandle s)) failure]
    /\ eventId failure = "mcp-connection-error"
    /\ meta failure
       = Some [("transport", Some (JStr "sse"));
               ("errorType", Some (JStr (errorType error)));
               ("errorMessage", Some (JStr (errorMessage error)));
               ("principal", None)]
    /\ transportsToSessionId s' = transportsToSessionId s
    /\ closeListeners s' = closeListeners s
    /\ world s' = w1
    /\ res s' = res s.
Proof.
  intros Hnow Hauth.
  unfold createSseRouter.get, createSseRouter.getTry, createSseRouter.getCatch.
  unfold_m.
  rewrite Hnow. simpl. rewrite Hauth. simpl.
  do 3 eexists. split; [reflexivity|]. simpl.
  split; [trace_eq|]. repeat split; reflexivity.
Qed.

Lemma sse_get_auth_failure_registers_nothing_witness :
  exists (s' : Store nat),
    run (createSseRouter.get Demo.services Demo.anonymous) storeWithSession
      = (Threw (JsError "AuthenticationError" "Missing credentials"), s')
    /\ transportsToSessionId s' = transportsToSessionId storeWithSession
    /\ closeListeners s' = [].
Proof.
  destruct (sse_get_auth_failure_registers_nothing Demo.services
              Demo.anonymous storeWithSession 1000 1%nat 1%nat
              (JsError "AuthenticationError" "Missing credentials")
              eq_refl eq_refl)
    as (s' & attempt & failure & Hrun & _ & _ & _ & Hreg & Hl & _).
  exists s'. repeat split; assumption.
Defined.

(** X17.  Opening and closing a stream is a round trip on the registry:
    when the generated session id was not registered before, the registry
    after the close listener has run equals the registry before [GET /].
    The [mcp-connection-closed] event names the session id and the time
    since the start of [GET /], and a message posted with that id
    afterwards is answered 400 with the text naming the id. *)
Theorem sse_open_close_round_trip {E} (svc : Services E)
    (req msg : Request) (s : Store E) (t0 t1 : Z) (w0 w1 w2 w3 w4 : E)
    (creds : BackstageCredentials) (sid : string) (answer : Outcome unit)
    (r3 : Response) :
  Date_now svc (world s) = (t0, w0) ->
  httpAuth_credentials svc req w0 = (Returned creds, w1) ->
  randomUUID svc w1 = (sid, w2) ->
  server_connect svc (res s) w2 = (answer, r3, w3) ->
  Date_now svc w3 = (t1, w4) ->
  transportsToSessionId s !! sid = None ->
  query_sessionId msg = Some sid ->
  sid <> "" ->
  exists (s1 s2 s3 : Store E) (listener : CloseListener) (closed : AuditEvent),
    run (createSseRouter.get svc req) s = (answer, s1)
    /\ closeListeners s1 = closeListeners s ++ [listener]
    /\ run (fireClose svc listener) s1 = (Returned tt, s2)
    /\ trace s2 = trace s1 ++ [AuditorCreateEvent (nextHandle s1) closed;
                               MapDelete sid]
    /\ eventId closed = "mcp-connection-closed"
    /\ meta closed
       = Some [("transport", Some (JStr "sse"));
               ("sessionId", Some (JStr sid));
               ("duration", Some (JNum (t1 - t0)));
               ("principal", principalOf creds)]
    /\ transportsToSessionId s2 = transportsToSessionId s
    /\ run (createSseRouter.postMessages svc msg) s2 = (Returned tt, s3)
    /\ res s3 = respondBadRequest r3 (createSseRouter.noTransportMessage sid).
Proof.
  intros Hnow Hauth Huuid Hconnect Hfinish Hfresh Hq Hne.
  destruct sid as [|c sid']; [congruence|].
  unfold createSseRouter.get, createSseRouter.getTry, createSseRouter.getCatch,
    createSseRouter.map_set, createSseRouter.postMessages,
    createSseRouter.map_get.
  rewrite Hq. unfold_m.
  rewrite Hnow. simpl. rewrite Hauth. simpl. rewrite Huuid. simpl.
  rewrite Hconnect. simpl.
  destruct answer as [[]|error]; simpl;
    do 3 eexists;
    exists (SseClose req t0 (transportFor req (String c sid')) (Some creds));
    eexists;
    (split; [reflexivity|]); simpl; (split; [reflexivity|]);
    unfold fireClose, createSseRouter.onClose, createSseRouter.map_delete;
    unfold_m; simpl; rewrite Hfinish; simpl;
    (split; [reflexivity|]); simpl; (split; [trace_eq|]);
    (split; [reflexivity|]); (split; [reflexivity|]);
    rewrite delete_insert_eq, (delete_id _ _ Hfresh);
    (split; [reflexivity|]); rewrite Hfresh; simpl;
    split; reflexivity.
Qed.

Lemma sse_open_close_round_trip_witness :
  exists (s1 s2 s3 : Store nat) (listener : CloseListener),
    run (createSseRouter.get Demo.services Demo.authenticated) Demo.store0
      = (Returned tt, s1)
    /\ run (fireClose Demo.services listener) s1 = (Returned tt, s2)
    /\ transportsToSessionId s2 = ∅
    /\ run (createSseRouter.postMessages Demo.services (messageFor "uuid-1")) s2
       = (Returned tt, s3)
    /\ statusCode (res s3) = 400.
Proof.
  destruct (sse_open_close_round_trip Demo.services Demo.authenticated
              (messageFor "uuid-1") Demo.store0 1000 1002
              1%nat 1%nat 2%nat 2%nat 3%nat Demo.guest "uuid-1"
              (Returned tt) freshResponse
              eq_refl eq_refl eq_refl eq_refl eq_refl eq_refl eq_refl
              ltac:(discriminate))
    as (s1 & s2 & s3 & listener & closed & Hget & _ & Hclose & _ & _ & _
        & Hreg & Hmsg & Hres).
  exists s1, s2, s3, listener.
  split; [exact Hget|]. split; [exact Hclose|]. split; [exact Hreg|].
  split; [exact Hmsg|]. rewrite Hres. reflexivity.
Defined.

(** X18.  The close listener of a legacy stream removes the entry of its
    own session id and no other: afterwards that id does not resolve,
    every other id resolves exactly as before, and a stream that was
    already unregistered leaves the registry unchanged.  It writes nothing
    to the response. *)
Theorem sse_close_removes_only_its_session {E} (svc : Services E)
    (req : Request) (connectionStart : Z) (transport : SSEServerTransport)
    (creds : option BackstageCredentials) (s : Store E) :
  exists (s' : Store E) (closed : AuditEvent),
    run (fireClose svc (SseClose req connectionStart transport creds)) s
      = (Returned tt, s')
    /\ trace s' = trace s ++ [AuditorCreateEvent (nextHandle s) closed;
                              MapDelete (sessionId transport)]
    /\ eventId closed = "mcp-connection-closed"
    /\ transportsToSessionId s' !! sessionId transport = None
    /\ (forall k : string,
          k <> sessionId transport ->
          transportsToSessionId s' !! k = transportsToSessionId s !! k)
    /\ (transportsToSessionId s !! sessionId transport = None ->
        transportsToSessionId s' = transportsToSessionId s)
    /\ res s' = res s.
Proof.
  unfold fireClose, createSseRouter.onClose, createSseRouter.map_delete.
  unfold_m.
  destruct (Date_now svc (world s)) as [finish w]. simpl.
  do 2 eexists. split; [reflexivity|]. simpl.
  split; [trace_eq|]. split; [reflexivity|].
  split; [apply lookup_delete_eq|].
  split; [intros k Hk; apply lookup_delete_ne; congruence|].
  split; [apply delete_id|reflexivity].
Qed.

Lemma sse_close_removes_only_its_session_witness :
  exists (s' : Store nat),
    run (fireClose Demo.services
           (SseClose Demo.authenticated 1000
              (transportFor Demo.authenticated "uuid-9") None))
      storeWithSession = (Returned tt, s')
    /\ transportsToSessionId s' !! "s-1"
       = transportsToSessionId storeWithSession !! "s-1"
    /\ transportsToSessionId s' = transportsToSessionId storeWithSession.
Proof.
  destruct (sse_close_removes_only_its_session Demo.services
              Demo.authenticated 1000
              (transportFor Demo.authenticated "uuid-9") None storeWithSession)
    as (s' & closed & Hrun & _ & _ & _ & Hother & Hsame & _).
  exists s'. split; [exact Hrun|].
  split; [apply Hother; discriminate|apply Hsame; reflexivity].
Defined.

(** ** The event id normalisation once more *)

(** X19.  For ids of ASCII characters, normalising an event id twice gives
    what normalising it once gives, as long as the normalised id is more
    than the bare prefix; the bare prefix [mcp-], which ids without any
    word character produce, is itself normalised to [mcp-mcp]. *)
Theorem normalizedEventId_idempotent (eventId : option string) :
  (forall str : string, eventId = Some str -> ascii_only str = true) ->
  (AuditorUtils.normalizedEventId eventId <> "mcp-" ->
   AuditorUtils.normalizedEventId (Some (AuditorUtils.normalizedEventId eventId))
   = AuditorUtils.normalizedEventId eventId)
  /\ (AuditorUtils.normalizedEventId eventId = "mcp-" ->
      AuditorUtils.normalizedEventId
        (Some (AuditorUtils.normalizedEventId eventId)) = "mcp-mcp").
Proof.
  intros _.
  destruct (normalizedEventId_shape eventId) as (tail & -> & Htail). split.
  - intros Hne. destruct Htail as [->|Hkebab].
    + exfalso. apply Hne. reflexivity.
    + apply normalizedEventId_fixed, Hkebab.
  - intros Hbare.
    change ("mcp-" +:+ tail)
      with (String "m" (String "c" (String "p" (String "-" tail)))) in Hbare.
    injection Hbare as Htail'. subst tail. reflexivity.
Qed.

Lemma normalizedEventId_idempotent_witness :
  AuditorUtils.normalizedEventId
    (Some (AuditorUtils.normalizedEventId (Some "HTTP error")))
  = "mcp-http-error"
  /\ AuditorUtils.normalizedEventId
       (Some (AuditorUtils.normalizedEventId (Some "!!!"))) = "mcp-mcp".
Proof.
  split.
  - destruct (normalizedEventId_idempotent (Some "HTTP error")) as [Hidem _].
    { intros str Heq. injection Heq as <-. reflexivity. }
    rewrite Hidem; [reflexivity|discriminate].
  - destruct (normalizedEventId_idempotent (Some "!!!")) as [_ Hbare].
    { intros str Heq. injection Heq as <-. reflexivity. }
    apply Hbare. reflexivity.
Defined.

(** ** Audit handles *)

(** Counts the completions of [h] among concrete effects. *)
Ltac count_completions :=
  unfold completions; cbn -[Nat.eqb];
  repeat match goal with
         | |- context [Nat.eqb ?a ?b] => destruct (Nat.eqb_spec a b)
         end;
  cbn -[Nat.eqb]; lia.

Lemma post_completes_at_most_once {E} (svc : Services E) (req : Request)
    (s : Store E) (h : Handle) :
  exists effects : list Effect,
    trace (snd (run (createStreamableRouter.post svc req) s))
      = trace s ++ effects
    /\ (length (completions h effects) <= 1)%nat.
Proof.
  unfold createStreamableRouter.post, createStreamableRouter.postTry,
    createStreamableRouter.postCatch.
  unfold_m.
  destruct (Date_now svc (world s)) as [t0 w0]; simpl.
  destruct (httpAuth_credentials svc req w0) as [[creds|e0] w1]; simpl.
  - destruct (randomUUID svc w1) as [cid w2]; simpl.
    destruct (server_connect svc (res s) w2) as [[[[]|e1] r3] w3]; simpl.
    + destruct (transport_handleRequest svc req r3 w3)
        as [[[[]|e2] r4] w4]; simpl.
      * eexists. split; [trace_eq|]. count_completions.
      * destruct (isError e2); simpl; destruct (headersSent r4); simpl;
          eexists; (split; [trace_eq|]); count_completions.
    + destruct (isError e1); simpl; destruct (headersSent r3); simpl;
        eexists; (split; [trace_eq|]); count_completions.
  - destruct (isError e0); simpl; destruct (headersSent (res s)); simpl;
      eexists; (split; [trace_eq|]); count_completions.
Qed.

Lemma sse_get_completes_at_most_once {E} (svc : Services E) (req : Request)
    (s : Store E) (h : Handle) :
  exists effects : list Effect,
    trace (snd (run (createSseRouter.get svc req) s)) = trace s ++ effects
    /\ (length (completions h effects) <= 1)%nat.
Proof.
  unfold createSseRouter.get, createSseRouter.getTry, createSseRouter.getCatch,
    createSseRouter.map_set.
  unfold_m.
  destruct (Date_now svc (world s)) as [t0 w0]; simpl.
  destruct (httpAuth_credentials svc req w0) as [[creds|e0] w1]; simpl.
  - destruct (randomUUID svc w1) as [sid w2]; simpl.
    destruct (server_connect svc (res s) w2) as [[[[]|e1] r3] w3]; simpl;
      eexists; (split; [trace_eq|]); count_completions.
  - eexists. split; [trace_eq|]. count_completions.
Qed.

Lemma callTool_completes_at_most_once {E} (svc : Services E)
    (c : BackstageCredentials) (p : CallToolParams) (s : Store E)
    (h : Handle) :
  exists effects : list Effect,
    trace (snd (run (enter svc (CallTool c p)) s)) = trace s ++ effects
    /\ (length (completions h effects) <= 1)%nat.
Proof.
  unfold enter, McpService.callTool, McpService.callToolBody. unfold_m.
  destruct (Date_now svc (world s)) as [t0 w0]; simpl.
  destruct (actions_list svc c w0) as [[actions|e] w1]; simpl.
  - destruct (List.find _ actions) as [action|]; simpl.
    + destruct (actions_invoke svc _ _ _ w1) as [[produced|e] w2]; simpl;
        destruct (Date_now svc w2) as [t1 w3]; simpl;
        eexists; (split; [trace_eq|]); count_completions.
    + destruct (Date_now svc w1) as [t1 w3]; simpl.
      eexists. split; [trace_eq|]. count_completions.
  - destruct (Date_now svc w1) as [t1 w3]; simpl.
    eexists. split; [trace_eq|]. count_completions.
Qed.

Lemma completions_none (h : Handle) (effects : list Effect) :
  forallb (fun eff => negb (isCompletion eff)) effects = true ->
  completions h effects = [].
Proof.
  unfold completions. induction effects as [|eff effects IH]; [reflexivity|].
  simpl. intros H. apply andb_prop in H as [Heff H].
  destruct eff; try discriminate Heff; simpl; auto.
Qed.

(** X20.  No entry point completes an audit handle more than once: for
    every handle, the effects of a run contain at most one [success] or
    [fail] of it, whatever the collaborators answer.  The list handler,
    the method-not-allowed handlers, the side channel and the close
    listeners complete no handle at all. *)
Theorem handles_completed_at_most_once {E} (svc : Services E)
    (ep : EntryPoint) (s : Store E) (h : Handle) :
  exists effects : list Effect,
    trace (snd (run (enter svc ep) s)) = trace s ++ effects
    /\ (length (completions h effects) <= 1)%nat
    /\ (match ep with
        | CallTool _ _ | StreamablePost _ | SseGet _ => True
        | _ => completions h effects = []
        end).
Proof.
  assert (forall ep' : EntryPoint,
             match ep' with
             | CallTool _ _ | StreamablePost _ | SseGet _ => False
             | _ => True
             end ->
             through (emitting (fun eff => negb (isCompletion eff)))
               (enter svc ep')) as Hquiet.
  { intros ep' Hep'.
    destruct ep' as [c|c p|req|req|req|req|req|[req t cid c|req t tr c]];
      try contradiction;
      unfold_handlers; through_steps emitting_leaf. }
  destruct ep as [c|c p|req|req|req|req|req|[req t cid c|req t tr c]].
  2: { destruct (callTool_completes_at_most_once svc c p s h)
         as (effects & Htrace & Hle). exists effects. auto. }
  2: { destruct (post_completes_at_most_once svc req s h)
         as (effects & Htrace & Hle). exists effects. auto. }
  4: { destruct (sse_get_completes_at_most_once svc req s h)
         as (effects & Htrace & Hle). exists effects. auto. }
  all: match goal with
       | |- context [enter _ ?e] =>
           destruct (Hquiet e I s) as (effects & Htrace & Hnone)
       end;
    exists effects; rewrite (completions_none h effects Hnone);
    repeat split; [exact Htrace|simpl; lia].
Qed.
